(** * Invoice-Rename-AI: field cleaning, canonical naming, collision
      resolution and batch processing of [src/bot.py]

    Python [str] values are sequences of Unicode code points; they are
    modelled as lists of code points ([N]), so that [len], slicing and the
    character classes of [re] work on the same units as in the source. *)

From Stdlib Require Import NArith List Bool Lia Ascii String.
From Stdlib Require Import Decimal DecimalNat DecimalN DecimalString.
From stdpp Require Import base decidable numbers option list gmap.

Local Open Scope N_scope.

(** ** Strings as lists of code points *)

Abbreviation char := N (only parsing).
Abbreviation ustring := (list N) (only parsing).

(** The groups of a match, and what a matcher does with the rest of the
    subject once a part of the pattern has matched. *)
Abbreviation captures := (list (list N)) (only parsing).
Abbreviation cont := (list N -> list (list N) -> option (list (list N))) (only parsing).

(** An ASCII literal of the source, as a list of code points. *)
Fixpoint u (s : string) : ustring :=
  match s with
  | EmptyString => []
  | String a r => N_of_ascii a :: u r
  end.

Definition UNKNOWN_ATTRIBUTE_TEXT : ustring := u "UNKNOWN".

Definition in_range (lo hi : N) (c : char) : bool := (lo <=? c) && (c <=? hi).

Definition char_in (cs : ustring) (c : char) : bool := existsb (N.eqb c) cs.

(** The class of the nine characters that are not allowed in file names:
    less-than, greater-than, colon, double quote (34), slash, backslash,
    bar, question mark and star. *)
Definition illegal_chars : ustring := u "<>:" ++ [34] ++ u "/\|?*".
Definition illegal (c : char) : bool := char_in illegal_chars c.

(** [\s] on [str] patterns and [str.strip()] use the same table of Unicode
    white space ([Py_UNICODE_ISSPACE]). *)
Definition is_space (c : char) : bool :=
  in_range 9 13 c || in_range 28 32 c || (c =? 133) || (c =? 160)
  || (c =? 5760) || in_range 8192 8202 c || (c =? 8232) || (c =? 8233)
  || (c =? 8239) || (c =? 8287) || (c =? 12288).

(** [[\s\-\.]] *)
Definition separator (c : char) : bool :=
  is_space c || (c =? 45) || (c =? 46).

(** The same class extended with [\s]. *)
Definition illegal_or_space (c : char) : bool := illegal c || is_space c.

(** [[a-zA-Z0-9\-_]]; the source removes the complement of this class. *)
Definition number_char (c : char) : bool :=
  in_range 97 122 c || in_range 65 90 c || in_range 48 57 c
  || (c =? 45) || (c =? 95).

(** [[0-9\.\,\$€£¥]]; the source removes the complement of this class
    (U+20AC, U+00A3 and U+00A5 are the euro, pound and yen signs). *)
Definition total_char (c : char) : bool :=
  in_range 48 57 c || (c =? 46) || (c =? 44) || (c =? 36)
  || (c =? 8364) || (c =? 163) || (c =? 165).

(** ** The fragments of [re.sub] and [str] that the cleaners use *)

(** [re.sub(r'[cls]', repl, s)]: every character of the class is replaced. *)
Fixpoint re_sub_class (cls : char -> bool) (repl s : ustring) : ustring :=
  match s with
  | [] => []
  | c :: r => if cls c then repl ++ re_sub_class cls repl r
              else c :: re_sub_class cls repl r
  end.

(** [re.sub(r'[cls]+', repl, s)]: every maximal run of characters of the
    class is replaced once.  [in_run] says that the previous character
    belonged to the run being replaced. *)
Fixpoint sub_runs (cls : char -> bool) (repl : ustring) (in_run : bool)
    (s : ustring) : ustring :=
  match s with
  | [] => []
  | c :: r =>
      if cls c then
        if in_run then sub_runs cls repl true r
        else repl ++ sub_runs cls repl true r
      else c :: sub_runs cls repl false r
  end.

Definition re_sub_class_plus (cls : char -> bool) (repl s : ustring) : ustring :=
  sub_runs cls repl false s.

Fixpoint startswith (p s : ustring) : bool :=
  match p, s with
  | [], _ => true
  | a :: p', b :: s' => (a =? b) && startswith p' s'
  | _ :: _, [] => false
  end.

Definition endswith (p s : ustring) : bool := startswith (reverse p) (reverse s).

(** [re.sub(r'^lit', '', s)]: without [re.MULTILINE] the anchor matches at
    the start of the string only. *)
Definition re_sub_prefix (lit s : ustring) : ustring :=
  if startswith lit s then drop (length lit) s else s.

(** [re.sub(r'lit$', '', s)]: [$] matches at the end of the string and
    just before a newline that ends the string. *)
Definition re_sub_suffix (lit s : ustring) : ustring :=
  if endswith lit s then take (length s - length lit)%nat s
  else if endswith (lit ++ [10]) s
       then take (length s - S (length lit))%nat s ++ [10]
       else s.

Fixpoint lstrip (p : char -> bool) (s : ustring) : ustring :=
  match s with
  | [] => []
  | c :: r => if p c then lstrip p r else s
  end.

Definition rstrip (p : char -> bool) (s : ustring) : ustring :=
  reverse (lstrip p (reverse s)).

(** [s.strip(chars)] and [s.strip()] *)
Definition strip (p : char -> bool) (s : ustring) : ustring :=
  rstrip p (lstrip p s).

Definition is_underscore (c : char) : bool := c =? 95.

(** [x if x else UNKNOWN_ATTRIBUTE_TEXT] *)
Definition or_unknown (cleaned : ustring) : ustring :=
  match cleaned with
  | [] => UNKNOWN_ATTRIBUTE_TEXT
  | _ :: _ => cleaned
  end.

(** ** FieldNormalizer *)

(** The value of [cleaned] when [clean_company_name] reaches its last
    line. *)
Definition company_name_cleaned (company_name : ustring) : ustring :=
  let cleaned := re_sub_class illegal [] company_name in
  let cleaned := re_sub_prefix (u "www.") cleaned in
  let cleaned := re_sub_suffix (u ".com") cleaned in
  let cleaned := re_sub_class_plus separator (u "_") cleaned in
  let cleaned := strip is_underscore cleaned in
  let cleaned := if (50 <? length cleaned)%nat then take 50 cleaned else cleaned in
  cleaned.

Definition clean_company_name (company_name : ustring) : ustring :=
  if decide (company_name = UNKNOWN_ATTRIBUTE_TEXT) then company_name
  else or_unknown (company_name_cleaned company_name).

Definition invoice_number_cleaned (invoice_number : ustring) : ustring :=
  let cleaned := re_sub_class illegal_or_space [] invoice_number in
  let cleaned := re_sub_class (fun c => negb (number_char c)) [] cleaned in
  cleaned.

Definition clean_invoice_number (invoice_number : ustring) : ustring :=
  if decide (invoice_number = UNKNOWN_ATTRIBUTE_TEXT) then invoice_number
  else or_unknown (invoice_number_cleaned invoice_number).

Definition invoice_total_cleaned (invoice_total : ustring) : ustring :=
  let cleaned := re_sub_class illegal [] invoice_total in
  let cleaned := re_sub_class_plus is_space [] cleaned in
  let cleaned := re_sub_class (fun c => negb (total_char c)) [] cleaned in
  cleaned.

Definition clean_invoice_total (invoice_total : ustring) : ustring :=
  if decide (invoice_total = UNKNOWN_ATTRIBUTE_TEXT) then invoice_total
  else or_unknown (invoice_total_cleaned invoice_total).

(** ** DateParser *)

(** [str.zfill(width)]: pads with ASCII zeros on the left, after a leading
    sign if there is one. *)
Definition zfill (width : nat) (s : ustring) : ustring :=
  if (width <=? length s)%nat then s
  else
    let fill := repeat 48 (width - length s) in
    match s with
    | c :: r => if (c =? 43) || (c =? 45) then c :: fill ++ r else fill ++ s
    | [] => fill
    end.

(** [str(n)] and [f"{n}"] for a non-negative [int]. *)
Definition str_of_N (n : N) : ustring := u (NilZero.string_of_uint (N.to_uint n)).

(** How Unicode classifies a character as a digit: [\d] matches the decimal
    digits (category Nd), [str.isdigit] accepts the decimal digits and the
    other characters of numeric type Digit (superscripts and the like), and
    [int] reads the decimal digits by their value. *)
Inductive digit_class :=
| NotDigit
| OtherDigit
| DecimalDigit (v : N).

(** The Unicode character database is not part of the repository: the
    classes of the characters above U+007F are parameters.  On ASCII the
    tables are fixed. *)
Class UnicodeTables := {
  nonascii_digit : char -> digit_class;
  nonascii_word : char -> bool
}.

(** The tables of an interpreter that knows ASCII only. *)
Definition ascii_tables : UnicodeTables :=
  {| nonascii_digit := fun _ => NotDigit; nonascii_word := fun _ => false |}.

Section Tables.
Context {tables : UnicodeTables}.

Definition digit_class_of (c : char) : digit_class :=
  if c <? 128 then
    if in_range 48 57 c then DecimalDigit (c - 48) else NotDigit
  else nonascii_digit c.

(** [\d] *)
Definition re_digit (c : char) : bool :=
  match digit_class_of c with DecimalDigit _ => true | _ => false end.

(** [\w] *)
Definition re_word (c : char) : bool :=
  if c <? 128 then
    in_range 97 122 c || in_range 65 90 c || in_range 48 57 c || (c =? 95)
  else nonascii_word c.

Definition char_isdigit (c : char) : bool :=
  match digit_class_of c with NotDigit => false | _ => true end.

(** [s.isdigit()]: false on the empty string. *)
Definition str_isdigit (s : ustring) : bool :=
  match s with
  | [] => false
  | _ :: _ => forallb char_isdigit s
  end.

(** [int(s)] on a string that passed [isdigit]: the value of its decimal
    digits; [None] stands for the [ValueError] raised on any other digit. *)
Fixpoint int_digits (acc : N) (s : ustring) : option N :=
  match s with
  | [] => Some acc
  | c :: r =>
      match digit_class_of c with
      | DecimalDigit v => int_digits (10 * acc + v) r
      | _ => None
      end
  end.

Definition py_int (s : ustring) : option N :=
  match s with
  | [] => None
  | _ :: _ => int_digits 0 s
  end.

(** *** The fragment of [re] that the date patterns use

    A pattern is a sequence of greedy repetitions of a character class,
    alternatives of literals, and capturing groups.  The matcher backtracks
    as [re] does: a repetition first takes as many characters as it can and
    gives them back one at a time while the rest of the pattern fails. *)
Inductive regex :=
| Rep (cls : char -> bool) (lo : nat) (hi : option nat)
| Alt (alts : list ustring)
| Group (r : regex)
| Seq (r1 r2 : regex).


Fixpoint count_prefix (cls : char -> bool) (hi : nat) (s : ustring) : nat :=
  match hi, s with
  | S h, c :: r => if cls c then S (count_prefix cls h r) else O
  | _, _ => O
  end.

(** Tries [n], [n - 1], ... down to [lo] repetitions. *)
Fixpoint backtrack (n lo : nat) (try : nat -> option captures) : option captures :=
  if (n <? lo)%nat then None
  else
    match try n with
    | Some r => Some r
    | None =>
        match n with
        | O => None
        | S n' => backtrack n' lo try
        end
    end.

(** Every search of the source passes [re.IGNORECASE]: a literal letter
    matches the characters whose lower case is its lower case, [s] also
    matches U+017F (long s) and [i] also matches U+0131 (dotless i).
    U+212A (Kelvin) and U+0130 are the characters outside ASCII whose lower
    case is an ASCII letter. *)
Definition tolower (c : char) : char :=
  if in_range 65 90 c then c + 32
  else if c =? 8490 then 107
  else if c =? 304 then 105
  else c.

Definition ci_eq (p c : char) : bool :=
  (tolower c =? tolower p) || ((tolower p =? 115) && (c =? 383))
  || ((tolower p =? 105) && (c =? 305)).

Fixpoint ci_startswith (p s : ustring) : bool :=
  match p, s with
  | [], _ => true
  | a :: p', b :: s' => ci_eq a b && ci_startswith p' s'
  | _ :: _, [] => false
  end.

Fixpoint rmatch (r : regex) (k : cont) (s : ustring) (gs : captures)
    : option captures :=
  match r with
  | Rep cls lo hi =>
      let n := count_prefix cls (default (length s) hi) s in
      backtrack n lo (fun j => k (drop j s) gs)
  | Alt alts =>
      (fix first (alts : list ustring) : option captures :=
         match alts with
         | [] => None
         | a :: rest =>
             if ci_startswith a s then
               match k (drop (length a) s) gs with
               | Some r => Some r
               | None => first rest
               end
             else first rest
         end) alts
  | Group r' =>
      rmatch r' (fun s' gs' => k s' (gs' ++ [take (length s - length s') s])) s gs
  | Seq r1 r2 => rmatch r1 (rmatch r2 k) s gs
  end.

(** [re.search(pattern, s).groups()]: the leftmost match; [None] when the
    pattern matches nowhere. *)
Fixpoint re_search (r : regex) (s : ustring) : option captures :=
  match rmatch r (fun _ gs => Some gs) s [] with
  | Some gs => Some gs
  | None =>
      match s with
      | [] => None
      | _ :: s' => re_search r s'
      end
  end.

Definition one (cls : char -> bool) : regex := Rep cls 1 (Some 1%nat).
Definition digits (lo hi : nat) : regex := Group (Rep re_digit lo (Some hi)).
Definition slash_or_dash : regex := one (char_in (u "/-")).
Definition spaces : regex := Rep is_space 1 None.
Definition month_name : regex :=
  Seq (Group (Alt (map u ["Jan"; "Feb"; "Mar"; "Apr"; "May"; "Jun";
                          "Jul"; "Aug"; "Sep"; "Oct"; "Nov"; "Dec"]%string)))
      (Rep re_word 0 None).

Definition seq_all (rs : list regex) (last : regex) : regex :=
  foldr Seq last rs.

(** [(\d{1,2})[/-](\d{1,2})[/-](\d{2,4})] *)
Definition pattern_mdy : regex :=
  seq_all [digits 1 2; slash_or_dash; digits 1 2; slash_or_dash] (digits 2 4).

(** [(\d{2,4})[/-](\d{1,2})[/-](\d{1,2})] *)
Definition pattern_ymd : regex :=
  seq_all [digits 2 4; slash_or_dash; digits 1 2; slash_or_dash] (digits 1 2).

(** [(\d{1,2})\s+(Jan|...|Dec)\w*\s+(\d{2,4})] *)
Definition pattern_d_month_y : regex :=
  seq_all [digits 1 2; spaces; month_name; spaces] (digits 2 4).

(** [(Jan|...|Dec)\w*\s+(\d{1,2}),?\s+(\d{2,4})] *)
Definition pattern_month_d_y : regex :=
  seq_all [month_name; spaces; digits 1 2; Rep (N.eqb 44) 0 (Some 1%nat); spaces]
          (digits 2 4).

Definition date_patterns : list regex :=
  [pattern_mdy; pattern_ymd; pattern_d_month_y; pattern_month_d_y].

(** The body of the [try] block for one matching pattern: [Some] is the
    value returned, [None] means that the loop goes on (no branch returned,
    or [int] raised and the [except] clause swallowed it). *)
Definition reformat (groups : captures) : option ustring :=
  match groups with
  | [g0; g1; g2] =>
      if str_isdigit g0 && str_isdigit g1 && str_isdigit g2 then
        if (length g2 =? 4)%nat then
          Some (g0 ++ u "-" ++ zfill 2 g1 ++ u "-" ++ zfill 2 g2)
        else
          match py_int g2 with
          | Some n =>
              let year := if n <? 50 then n + 2000 else n + 1900 in
              Some (str_of_N year ++ u "-" ++ zfill 2 g0 ++ u "-" ++ zfill 2 g1)
          | None => None
          end
      else None
  | _ => None
  end.

Fixpoint try_patterns (patterns : list regex) (date : ustring) : option ustring :=
  match patterns with
  | [] => None
  | pattern :: rest =>
      match re_search pattern date with
      | Some groups =>
          match reformat groups with
          | Some r => Some r
          | None => try_patterns rest date
          end
      | None => try_patterns rest date
      end
  end.

(** The value of [cleaned] on the last line of [clean_date]. *)
Definition date_cleaned (date : ustring) : ustring :=
  let cleaned := re_sub_class illegal [] date in
  let cleaned := re_sub_class_plus is_space (u "_") (strip is_space cleaned) in
  cleaned.

Definition clean_date (date : ustring) : ustring :=
  if decide (date = UNKNOWN_ATTRIBUTE_TEXT) then date
  else
    match try_patterns date_patterns date with
    | Some r => r
    | None => or_unknown (date_cleaned date)
    end.

End Tables.

(** [clean_all] overwrites the four entries of the dictionary it is given
    and returns it; the record is the dictionary with its four fixed keys. *)
Record InvoiceRecord := {
  company_name : ustring;
  invoice_number : ustring;
  invoice_total : ustring;
  date : ustring
}.

Definition clean_all {tables : UnicodeTables} (invoice_data : InvoiceRecord) : InvoiceRecord :=
  {| company_name := clean_company_name (company_name invoice_data);
     invoice_number := clean_invoice_number (invoice_number invoice_data);
     invoice_total := clean_invoice_total (invoice_total invoice_data);
     date := clean_date (date invoice_data) |}.

(** ** NameBuilder *)

(** The reading of the wall clock, [datetime.now()]. *)
Record datetime := { year : N; month : N; day : N }.

(** [strftime("%Y-%m-%d")] *)
Definition strftime_Ymd (d : datetime) : ustring :=
  zfill 4 (str_of_N (year d)) ++ u "-" ++ zfill 2 (str_of_N (month d))
  ++ u "-" ++ zfill 2 (str_of_N (day d)).

(** [sep.join(parts)] *)
Fixpoint join (sep : ustring) (parts : list ustring) : ustring :=
  match parts with
  | [] => []
  | [x] => x
  | x :: rest => x ++ sep ++ join sep rest
  end.

Definition components_of (now : datetime) (invoice_data : InvoiceRecord)
    : list ustring :=
  let components := [] in
  let components :=
    if decide (company_name invoice_data <> UNKNOWN_ATTRIBUTE_TEXT)
    then components ++ [company_name invoice_data]
    else components ++ [u "UnknownCompany"] in
  let components :=
    if decide (invoice_number invoice_data <> UNKNOWN_ATTRIBUTE_TEXT)
    then components ++ [invoice_number invoice_data]
    else components ++ [u "NoNumber"] in
  let components :=
    if decide (date invoice_data <> UNKNOWN_ATTRIBUTE_TEXT)
    then components ++ [date invoice_data]
    else components ++ [strftime_Ymd now] in
  let components :=
    if decide (invoice_total invoice_data <> UNKNOWN_ATTRIBUTE_TEXT)
    then components ++ [invoice_total invoice_data]
    else components ++ [u "NoAmount"] in
  components.

(** The value of [filename] before the length check. *)
Definition candidate_name (now : datetime) (invoice_data : InvoiceRecord) : ustring :=
  join (u "_") (components_of now invoice_data) ++ u ".pdf".

(** The length check at the end of [create_new_name]. *)
Definition limit_length (filename : ustring) : ustring :=
  if (200 <? length filename)%nat then take 200 filename ++ u ".pdf"
  else filename.

Definition create_new_name (now : datetime) (invoice_data : InvoiceRecord) : ustring :=
  limit_length (candidate_name now invoice_data).

(** A [datetime] has a year from 1 to 9999, a month and a day in range. *)
Definition valid_datetime (d : datetime) : Prop :=
  1 <= year d <= 9999 /\ 1 <= month d <= 12 /\ 1 <= day d <= 31.

(** ** CollisionResolver *)

(** [s.rfind(c)], [-1] when [c] does not occur. *)
Fixpoint rfind_from (c : char) (s : ustring) (i : Z) (last : Z) : Z :=
  match s with
  | [] => last
  | x :: r => rfind_from c r (i + 1)%Z (if x =? c then i else last)
  end.

Definition rfind (c : char) (s : ustring) : Z := rfind_from c s 0%Z (-1)%Z.

(** [p[i:j]] for indices that are not negative. *)
Definition slice (p : ustring) (i j : Z) : ustring :=
  take (Z.to_nat j - Z.to_nat i)%nat (drop (Z.to_nat i) p).

(** The functions of [os.path] are those of [posixpath].

    [os.path.splitext]: the extension starts at the last dot of the last
    path component, leading dots of the component apart. *)
Definition os_path_splitext (p : ustring) : ustring * ustring :=
  let sepIndex := rfind 47 p in
  let dotIndex := rfind 46 p in
  if (sepIndex <? dotIndex)%Z
     && existsb (fun c => negb (c =? 46)) (slice p (sepIndex + 1) dotIndex)
  then (take (Z.to_nat dotIndex) p, drop (Z.to_nat dotIndex) p)
  else (p, []).

(** [os.path.dirname] of [posixpath] *)
Definition os_path_dirname (p : ustring) : ustring :=
  let i := Z.succ (rfind 47 p) in
  let head := take (Z.to_nat i) p in
  if negb (forallb (N.eqb 47) head) then rstrip (N.eqb 47) head else head.

(** [os.path.join(a, b)] of [posixpath] *)
Definition os_path_join (a b : ustring) : ustring :=
  if startswith (u "/") b then b
  else
    match a with
    | [] => a ++ b
    | _ :: _ => if endswith (u "/") a then a ++ b else a ++ u "/" ++ b
    end.

(** A call either returns or raises; the text of the exception is all the
    source looks at. *)
Inductive outcome (A : Type) :=
| Returns (a : A)
| Raises (e : ustring).
Arguments Returns {A} a.
Arguments Raises {A} e.

(** What the program asks of its environment.  [existing] is the set of the
    paths for which [os.path.exists] answers true; [document_qa] is the
    question-answering pipeline, after [extract_answer] has taken the text
    out of its response. *)
Class OS (world : Type) := {
  existing : world -> gset ustring;
  os_rename : ustring -> ustring -> world -> outcome world;
  os_makedirs : ustring -> world -> outcome world;
  shutil_copy2 : ustring -> ustring -> world -> outcome world;
  load_document : ustring -> world -> outcome unit;
  document_qa : ustring -> ustring -> world -> outcome ustring;
  datetime_now : world -> datetime
}.

Section Environment.
Context {world : Type} {os : OS world} {tables : UnicodeTables}.

Definition os_path_exists (p : ustring) (w : world) : bool :=
  bool_decide (p ∈ existing w).

(** [f"{base_name}_{counter}{ext}"] *)
Definition name_with_counter (base_name ext : ustring) (counter : nat) : ustring :=
  base_name ++ u "_" ++ str_of_N (N.of_nat counter) ++ ext.

(** The [while] loop of [rename_file]; [None] when the fuel runs out before
    the loop ends. *)
Fixpoint collision_loop (fuel : nat) (w : world) (directory base_name ext : ustring)
    (counter : nat) (new_path : ustring) : option ustring :=
  match fuel with
  | O => None
  | S fuel' =>
      if os_path_exists new_path w then
        let new_name_with_counter := name_with_counter base_name ext counter in
        let new_path := os_path_join directory new_name_with_counter in
        collision_loop fuel' w directory base_name ext (S counter) new_path
      else Some new_path
  end.

(** The path that [rename_file] settles on, before it calls [os.rename].
    The loop is given more rounds than there are existing paths, which is
    enough for it to end ([resolve_collision_first_free]). *)
Definition resolve_collision (w : world) (old_path new_name : ustring)
    : option ustring :=
  let directory := os_path_dirname old_path in
  let new_path := os_path_join directory new_name in
  let counter := 1%nat in
  let '(base_name, ext) := os_path_splitext new_name in
  collision_loop (2 + size (existing w)) w directory base_name ext counter new_path.

Definition rename_file (old_path new_name : ustring) (w : world)
    : option (outcome (world * ustring)) :=
  match resolve_collision w old_path new_name with
  | None => None
  | Some new_path =>
      Some match os_rename old_path new_path w with
           | Returns w' => Returns (w', new_path)
           | Raises e => Raises e
           end
  end.

(** ** BatchOrchestrator *)

Definition answer_or_unknown (question file_path : ustring) (w : world) : ustring :=
  match document_qa question file_path w with
  | Returns answer => answer
  | Raises _ => UNKNOWN_ATTRIBUTE_TEXT
  end.

Definition answer_invoice_questions (invoice_path : ustring) (w : world)
    : InvoiceRecord :=
  match load_document invoice_path w with
  | Returns _ =>
      {| company_name := answer_or_unknown (u "What is the company name") invoice_path w;
         invoice_number := answer_or_unknown (u "What is the invoice number") invoice_path w;
         invoice_total := answer_or_unknown (u "What is the invoice total") invoice_path w;
         date := answer_or_unknown (u "What is the date") invoice_path w |}
  | Raises _ =>
      {| company_name := UNKNOWN_ATTRIBUTE_TEXT;
         invoice_number := UNKNOWN_ATTRIBUTE_TEXT;
         invoice_total := UNKNOWN_ATTRIBUTE_TEXT;
         date := UNKNOWN_ATTRIBUTE_TEXT |}
  end.

(** The two shapes of a result dictionary; a failure carries
    [invoice_data: None]. *)
Inductive ProcessResult :=
| Success (original_path new_path new_filename : ustring) (data : InvoiceRecord)
| Failure (original_path error : ustring).

Definition success (r : ProcessResult) : bool :=
  match r with Success _ _ _ _ => true | Failure _ _ => false end.

Definition invoice_data (r : ProcessResult) : option InvoiceRecord :=
  match r with Success _ _ _ d => Some d | Failure _ _ => None end.

(** [if output_directory:] is false for [None] and for the empty string. *)
Definition truthy (output_directory : option ustring) : option ustring :=
  match output_directory with
  | Some (c :: d) => Some (c :: d)
  | _ => None
  end.

Definition process_single_invoice (file_path : ustring)
    (output_directory : option ustring) (w : world)
    : option (world * ProcessResult) :=
  let invoice_data := answer_invoice_questions file_path w in
  let cleaned_data := clean_all invoice_data in
  let new_filename := create_new_name (datetime_now w) cleaned_data in
  match truthy output_directory with
  | Some output_directory =>
      match os_makedirs output_directory w with
      | Returns w1 =>
          let new_path := os_path_join output_directory new_filename in
          match shutil_copy2 file_path new_path w1 with
          | Returns w2 =>
              Some (w2, Success file_path new_path new_filename cleaned_data)
          | Raises e => Some (w1, Failure file_path e)
          end
      | Raises e => Some (w, Failure file_path e)
      end
  | None =>
      match rename_file file_path new_filename w with
      | Some (Returns (w', new_path)) =>
          Some (w', Success file_path new_path new_filename cleaned_data)
      | Some (Raises e) => Some (w, Failure file_path e)
      | None => None
      end
  end.

(** One round of the loop of [process_multiple_invoices]. *)
Definition process_path (file_path : ustring) (output_directory : option ustring)
    (w : world) : option (world * ProcessResult) :=
  if os_path_exists file_path w then
    process_single_invoice file_path output_directory w
  else Some (w, Failure file_path (u "File not found")).

(** The loop, with [results] as its accumulator. *)
Fixpoint process_loop (file_paths : list ustring) (output_directory : option ustring)
    (w : world) (results : list ProcessResult)
    : option (world * list ProcessResult) :=
  match file_paths with
  | [] => Some (w, results)
  | file_path :: rest =>
      match process_path file_path output_directory w with
      | Some (w', result) =>
          process_loop rest output_directory w' (results ++ [result])
      | None => None
      end
  end.

Definition process_multiple_invoices (file_paths : list ustring)
    (output_directory : option ustring) (w : world)
    : option (world * list ProcessResult) :=
  let results := [] in
  process_loop file_paths output_directory w results.

End Environment.

(** *** A file system that is a set of names

    Renaming and copying succeed when the source exists; the model answers
    every question with the same text. *)
Record SetWorld := { files : gset ustring; clock : datetime }.

Definition set_rename (old new : ustring) (w : SetWorld) : outcome SetWorld :=
  if bool_decide (old ∈ files w)
  then Returns {| files := {[new]} ∪ (files w ∖ {[old]}); clock := clock w |}
  else Raises (u "No such file or directory").

Definition set_copy (src dst : ustring) (w : SetWorld) : outcome SetWorld :=
  if bool_decide (src ∈ files w)
  then Returns {| files := {[dst]} ∪ files w; clock := clock w |}
  else Raises (u "No such file or directory").

Definition set_os (answer : outcome ustring) : OS SetWorld :=
  {| existing := files;
     os_rename := set_rename;
     os_makedirs := fun _ w => Returns w;
     shutil_copy2 := set_copy;
     load_document := fun _ _ => Returns tt;
     document_qa := fun _ _ _ => answer;
     datetime_now := clock |}.

(** ** Vocabulary of the statements *)

(** A field, or the fallback that stands for it when it is the sentinel. *)
Definition or_default (field fallback : ustring) : ustring :=
  if decide (field = UNKNOWN_ATTRIBUTE_TEXT) then fallback else field.

Definition acme_record : InvoiceRecord :=
  {| company_name := u "Acme"; invoice_number := u "INV123";
     invoice_total := u "100.00"; date := u "2024-01-05" |}.

Definition unknown_record : InvoiceRecord :=
  {| company_name := UNKNOWN_ATTRIBUTE_TEXT; invoice_number := UNKNOWN_ATTRIBUTE_TEXT;
     invoice_total := UNKNOWN_ATTRIBUTE_TEXT; date := UNKNOWN_ATTRIBUTE_TEXT |}.

(** A record whose invoice number has 300 characters. *)
Definition long_record : InvoiceRecord :=
  {| company_name := u "Acme"; invoice_number := repeat 65 300;
     invoice_total := u "100.00"; date := u "2024-01-05" |}.

(** A string is safe when none of the nine illegal characters occurs in it. *)
Definition safe (s : ustring) : Prop := forall c, c ∈ illegal_chars -> c ∉ s.

(** The same, through the class of the source. *)
Definition legal (s : ustring) : Prop := Forall (fun c => illegal c = false) s.

Definition ends_with_underscore (s : ustring) : Prop := last s = Some 95.

(** The groups of the first numeric date pattern that matches. *)
Definition numeric_match {tables : UnicodeTables} (date : ustring) : option captures :=
  match re_search pattern_mdy date with
  | Some groups => Some groups
  | None => re_search pattern_ymd date
  end.

(** [year = int(g) + 2000 if int(g) < 50 else int(g) + 1900] *)
Definition expand_year (n : N) : N := if n <? 50 then n + 2000 else n + 1900.

(** What the numeric branch returns for three groups, the last of which
    reads as [n]. *)
Definition numeric_result (g1 g2 g3 : ustring) (n : N) : ustring :=
  if (length g3 =? 4)%nat
  then g1 ++ u "-" ++ zfill 2 g2 ++ u "-" ++ zfill 2 g3
  else str_of_N (expand_year n) ++ u "-" ++ zfill 2 g1 ++ u "-" ++ zfill 2 g2.

(** A captured run of [\d]. *)
Definition digit_group {tables : UnicodeTables} (lo hi : nat) (g : ustring) : Prop :=
  (lo <= length g <= hi)%nat /\ Forall (fun c => re_digit c = true) g.

(** The shape of a cleaned company name. *)
Record cleaned_shape (c : ustring) : Prop := {
  shape_legal : Forall (fun x => illegal x = false) c;
  shape_separators : Forall (fun x => separator x = false) c;
  shape_head : forall x, head c = Some x -> is_underscore x = false;
  shape_length : (length c <= 50)%nat
}.

(** The candidates of [rename_file] in the order in which it tries them:
    the name itself, then the names with the counters 1, 2, ... *)
Definition candidate_path (directory new_name : ustring) (k : nat) : ustring :=
  match k with
  | O => os_path_join directory new_name
  | S _ =>
      os_path_join directory
        (name_with_counter (os_path_splitext new_name).1 (os_path_splitext new_name).2 k)
  end.

(** What [os.path.join] puts in front of a relative second argument. *)
Definition join_prefix (a : ustring) : ustring :=
  match a with
  | [] => []
  | _ :: _ => if endswith (u "/") a then a else a ++ u "/"
  end.


Definition failed (r : ProcessResult) : bool := negb (success r).

(** A clock reading, and two small worlds of the set model in which the
    question-answering pipeline fails on every question. *)
Definition example_clock : datetime := {| year := 2026; month := 11; day := 3 |}.

Definition silent_os : OS SetWorld := set_os (Raises (u "no answer")).

Definition crowded_world : SetWorld :=
  {| files := {[ u "d/a.png"; u "d/X.pdf"; u "d/X_1.pdf" ]}; clock := example_clock |}.

Definition two_invoices : SetWorld :=
  {| files := {[ u "d/a.png"; u "d/b.png" ]}; clock := example_clock |}.







(** ** The directory scan and the report of the command line *)

(** [str.lower] follows the case tables of Unicode, which are not part of
    the repository. *)
Class CaseMapping := { str_lower : ustring -> ustring }.

(** Lower case of the ASCII letters only. *)
Definition ascii_lower : CaseMapping :=
  {| str_lower := map (fun c => if in_range 65 90 c then c + 32 else c) |}.

(** [os.listdir], which raises when its argument is not a directory that can
    be read, and [os.path.isfile]. *)
Class Listing (world : Type) := {
  os_listdir : ustring -> world -> outcome (list ustring);
  os_path_isfile : ustring -> world -> bool
}.

(** The dictionary that [run_invoice_processor] returns.  The entry
    [total_files] is absent ([None]) from the dictionary of the early
    return. *)
Record Summary := {
  summary_success : bool;
  message : ustring;
  processed_files : list ProcessResult;
  failed_files : list ProcessResult;
  total_files : option nat
}.

Definition default_extensions : list ustring :=
  map u [".pdf"; ".png"; ".jpg"; ".jpeg"; ".gif"; ".bmp"; ".tiff"; ".webp"]%string.

(** [os.path.basename] of [posixpath] *)
Definition os_path_basename (p : ustring) : ustring :=
  drop (Z.to_nat (Z.succ (rfind 47 p))) p.

(** The lines printed so far and how the printing ended. *)
Definition printed := (list ustring * outcome unit)%type.

(** [for file_result in results['processed_files']: print(...)]; reading
    [new_filename] from a failure raises [KeyError]. *)
Fixpoint print_processed (results : list ProcessResult) (lines : list ustring) : printed :=
  match results with
  | [] => (lines, Returns tt)
  | Success original_path _ new_filename _ :: rest =>
      print_processed rest
        (lines ++ [u "  " ++ [8226] ++ u " " ++ os_path_basename original_path
                   ++ u " " ++ [8594] ++ u " " ++ new_filename])
  | Failure _ _ :: _ => (lines, Raises (u "'new_filename'"))
  end.

Fixpoint print_failed (results : list ProcessResult) (lines : list ustring) : printed :=
  match results with
  | [] => (lines, Returns tt)
  | Failure original_path error :: rest =>
      print_failed rest
        (lines ++ [u "  " ++ [8226] ++ u " " ++ os_path_basename original_path
                   ++ u ": " ++ error])
  | Success _ _ _ _ :: _ => (lines, Raises (u "'error'"))
  end.

(** The end of the command line, from the print of the message on; reading
    [total_files] from a dictionary without it raises [KeyError]. *)
Definition main_report (results : Summary) : printed :=
  let lines := [[10] ++ message results] in
  let step1 :=
    match processed_files results with
    | [] => (lines, Returns tt)
    | _ :: _ =>
        print_processed (processed_files results)
          (lines ++ [[10] ++ u "Successfully processed files:"])
    end in
  match step1 with
  | (lines, Raises e) => (lines, Raises e)
  | (lines, Returns _) =>
      let step2 :=
        match failed_files results with
        | [] => (lines, Returns tt)
        | _ :: _ =>
            print_failed (failed_files results)
              (lines ++ [[10] ++ u "Failed to process files:"])
        end in
      match step2 with
      | (lines, Raises e) => (lines, Raises e)
      | (lines, Returns _) =>
          match total_files results with
          | Some total =>
              (lines ++ [[10] ++ u "Total files processed: "
                         ++ str_of_N (N.of_nat (length (processed_files results)))
                         ++ u "/" ++ str_of_N (N.of_nat total)],
               Returns tt)
          | None => (lines, Raises (u "'total_files'"))
          end
      end
  end.

(** The second line of the command line. *)
Definition mode_line (output_dir : option ustring) : ustring :=
  match truthy output_dir with
  | Some output_dir => u "Output directory: " ++ output_dir
  | None => u "Renaming files in place"
  end.

Section Processor.
Context {world : Type} {os : OS world} {listing : Listing world}
        {tables : UnicodeTables} {cases : CaseMapping}.

(** The loop over the names of the directory, with [invoice_files] as its
    accumulator. *)
Fixpoint scan_directory (input_directory : ustring) (file_extensions : list ustring)
    (w : world) (filenames : list ustring) (invoice_files : list ustring)
    : list ustring :=
  match filenames with
  | [] => invoice_files
  | filename :: rest =>
      let file_path := os_path_join input_directory filename in
      let invoice_files :=
        if os_path_isfile file_path w then
          let ext := (os_path_splitext (str_lower filename)).2 in
          if bool_decide (ext ∈ file_extensions) then invoice_files ++ [file_path]
          else invoice_files
        else invoice_files in
      scan_directory input_directory file_extensions w rest invoice_files
  end.

(** [None] when the collision loop of some file does not end, as in
    [process_multiple_invoices]. *)
Definition run_invoice_processor (input_directory : ustring)
    (output_directory : option ustring) (file_extensions : option (list ustring))
    (w : world) : option (outcome (world * Summary)) :=
  let file_extensions :=
    match file_extensions with
    | None => default_extensions
    | Some file_extensions => file_extensions
    end in
  let file_extensions := map str_lower file_extensions in
  let listed :=
    if os_path_exists input_directory w then
      match os_listdir input_directory w with
      | Returns filenames =>
          Returns (scan_directory input_directory file_extensions w filenames [])
      | Raises e => Raises e
      end
    else Returns [] in
  match listed with
  | Raises e => Some (Raises e)
  | Returns [] =>
      Some (Returns (w,
        {| summary_success := false;
           message := u "No invoice files found in " ++ input_directory;
           processed_files := [];
           failed_files := [];
           total_files := None |}))
  | Returns invoice_files =>
      match process_multiple_invoices invoice_files output_directory w with
      | None => None
      | Some (w', results) =>
          let successful := List.filter success results in
          let failed := List.filter (fun r => negb (success r)) results in
          Some (Returns (w',
            {| summary_success := (0 <? length successful)%nat;
               message := u "Processed " ++ str_of_N (N.of_nat (length successful))
                          ++ u " files successfully, "
                          ++ str_of_N (N.of_nat (length failed)) ++ u " failed";
               processed_files := successful;
               failed_files := failed;
               total_files := Some (length invoice_files) |}))
      end
  end.

(** The command line, with [argv] for [sys.argv]: the world it leaves, the
    lines it prints and how it ends.  [sys.exit(1)] raises [SystemExit],
    whose text is 1; an exception of [run_invoice_processor] or of the
    report is not caught. *)
Definition main (argv : list ustring) (w : world) : option (world * printed) :=
  match argv with
  | _ :: input_dir :: rest =>
      let output_dir := head rest in
      if os_path_exists input_dir w then
        let lines := [u "Processing invoices in: " ++ input_dir; mode_line output_dir] in
        match run_invoice_processor input_dir output_dir None w with
        | None => None
        | Some (Raises e) => Some (w, (lines, Raises e))
        | Some (Returns (w', results)) =>
            Some (w', (lines ++ (main_report results).1, (main_report results).2))
        end
      else
        Some (w, ([u "Error: Input directory '" ++ input_dir ++ u "' does not exist"],
                  Raises (u "1")))
  | _ =>
      Some (w, ([u "Usage: python bot.py <input_directory> [output_directory]";
                 u "Example: python bot.py ./invoices ./renamed_invoices"],
                Raises (u "1")))
  end.

End Processor.

(** ** Vocabulary of the further statements *)

(** A letter other than i, k and s: when case is ignored, only its two
    ASCII forms match it. *)
Definition plain_letter (p : char) : bool :=
  in_range 97 122 (tolower p) && negb (tolower p =? 105)
  && negb (tolower p =? 107) && negb (tolower p =? 115).

Definition second_letter_plain (a : ustring) : bool :=
  match a with
  | _ :: p :: _ => plain_letter p
  | _ => false
  end.

(** A directory name as [os.path.dirname] returns it: empty, made of
    slashes only, or not ending with a slash. *)
Definition trimmed_directory (d : ustring) : Prop :=
  Forall (fun c => c = 47) d \/ (d <> [] /\ last d <> Some 47).

(** [result["original_path"]], a key of both shapes of a result. *)
Definition original_path_of (r : ProcessResult) : ustring :=
  match r with Success p _ _ _ => p | Failure p _ => p end.

(** A successful [os.rename] moves one name in the set of existing paths. *)
Definition rename_moves {world : Type} {os : OS world} : Prop :=
  forall (old new : ustring) (w w' : world),
    os_rename old new w = Returns w' ->
    existing w' = {[new]} ∪ (existing w ∖ {[old]}).

(** A name of the directory that the scan keeps. *)
Definition selected {world : Type} {listing : Listing world} {cases : CaseMapping}
    (input_directory : ustring) (file_extensions : list ustring) (w : world)
    (filename : ustring) : bool :=
  os_path_isfile (os_path_join input_directory filename) w
  && bool_decide ((os_path_splitext (str_lower filename)).2 ∈ file_extensions).

(** The extensions that count, after they have been put in lower case. *)
Definition extensions_of {cases : CaseMapping} (file_extensions : option (list ustring))
    : list ustring :=
  map str_lower (default default_extensions file_extensions).

(** The line that ends the report of a run with files. *)
Definition total_line (processed total : nat) : ustring :=
  [10] ++ u "Total files processed: " ++ str_of_N (N.of_nat processed)
  ++ u "/" ++ str_of_N (N.of_nat total).

(** One directory with its names, over the set model: every other path is
    not a directory. *)
Definition set_listing (directory : ustring) (filenames : list ustring)
    : Listing SetWorld :=
  {| os_listdir := fun d _ =>
       if bool_decide (d = directory) then Returns filenames
       else Raises (u "Not a directory");
     os_path_isfile := fun p w =>
       bool_decide (p ∈ files w) && negb (bool_decide (p = directory)) |}.

(** A directory with one invoice and one file of another kind, and a
    directory without an invoice. *)
Definition invoice_directory : SetWorld :=
  {| files := {[ u "d"; u "d/A.PNG"; u "d/notes.txt" ]}; clock := example_clock |}.

Definition notes_directory : SetWorld :=
  {| files := {[ u "d"; u "d/notes.txt"; u "d/.pdf" ]}; clock := example_clock |}.

Definition invoice_listing : Listing SetWorld :=
  set_listing (u "d") [u "A.PNG"; u "notes.txt"].

Definition notes_listing : Listing SetWorld :=
  set_listing (u "d") [u "notes.txt"; u ".pdf"].

(** The run over [invoice_directory], renaming in place. *)
Definition invoice_run : SetWorld * Summary :=
  match run_invoice_processor (os := silent_os) (listing := invoice_listing)
          (tables := ascii_tables) (cases := ascii_lower)
          (u "d") None None invoice_directory with
  | Some (Returns r) => r
  | _ => (invoice_directory,
          {| summary_success := false; message := []; processed_files := [];
             failed_files := []; total_files := None |})
  end.

(** [two_invoices] after its first file has been processed in place. *)
Definition first_invoice_renamed : SetWorld * ProcessResult :=
  default (two_invoices, Failure [] [])
    (process_single_invoice (os := silent_os) (tables := ascii_tables)
       (u "d/a.png") None two_invoices).

(** The second file, processed in place after the first. *)
Definition second_invoice_renamed : SetWorld * ProcessResult :=
  default (two_invoices, Failure [] [])
    (process_single_invoice (os := silent_os) (tables := ascii_tables)
       (u "d/b.png") None first_invoice_renamed.1).

(** The first file copied to an output directory, and a batch in place
    over both files and a path that does not exist. *)
Definition first_invoice_copied : SetWorld * ProcessResult :=
  default (two_invoices, Failure [] [])
    (process_single_invoice (os := silent_os) (tables := ascii_tables)
       (u "d/a.png") (Some (u "out")) two_invoices).

Definition after_batch : SetWorld * list ProcessResult :=
  default (two_invoices, [])
    (process_multiple_invoices (os := silent_os) (tables := ascii_tables)
       [u "d/a.png"; u "d/c.png"; u "d/b.png"] None two_invoices).

(** The command line over [invoice_directory]. *)
Definition invoice_main : SetWorld * printed :=
  default (invoice_directory, ([], Returns tt))
    (main (os := silent_os) (listing := invoice_listing) (tables := ascii_tables)
       (cases := ascii_lower) [u "bot.py"; u "d"] invoice_directory).

(** * Properties *)

(** ** Strings *)

Lemma startswith_prefix (p s : ustring) :
  startswith p s = true <-> exists t, s = p ++ t.
Proof.
  revert s. induction p as [| a p IH]; intros s; cbn.
  - split; [eauto | reflexivity].
  - destruct s as [| b s].
    + split; [discriminate | intros [t Ht]; discriminate].
    + rewrite andb_true_iff, N.eqb_eq, IH. split.
      * intros [-> [t ->]]. eauto.
      * intros [t Ht]. injection Ht as -> ->. eauto.
Qed.

Lemma endswith_suffix (p s : ustring) :
  endswith p s = true <-> exists t, s = t ++ p.
Proof.
  unfold endswith. rewrite startswith_prefix. split.
  - intros [t Ht]. exists (reverse t).
    apply (f_equal reverse) in Ht.
    rewrite reverse_involutive, reverse_app, reverse_involutive in Ht. exact Ht.
  - intros [t ->]. exists (reverse t). apply reverse_app.
Qed.

Lemma endswith_elem (p s : ustring) (c : N) :
  endswith p s = true -> c ∈ p -> c ∈ s.
Proof.
  rewrite endswith_suffix. intros [t ->] Hc. apply elem_of_app. right. exact Hc.
Qed.

Lemma startswith_elem (p s : ustring) (c : N) :
  startswith p s = true -> c ∈ p -> c ∈ s.
Proof.
  rewrite startswith_prefix. intros [t ->] Hc. apply elem_of_app. left. exact Hc.
Qed.

(** *** What the substitutions keep and what they remove *)

Section Preserved.
Variable P : N -> Prop.

Lemma Forall_re_sub_class (cls : N -> bool) (repl s : ustring) :
  Forall P repl -> Forall P s -> Forall P (re_sub_class cls repl s).
Proof.
  intros Hrepl. induction 1 as [| c s Hc Hs IH]; cbn; [constructor |].
  destruct (cls c); [apply Forall_app; split; assumption | constructor; assumption].
Qed.

Lemma Forall_sub_runs (cls : N -> bool) (repl s : ustring) (in_run : bool) :
  Forall P repl -> Forall P s -> Forall P (sub_runs cls repl in_run s).
Proof.
  intros Hrepl Hs. revert in_run.
  induction Hs as [| c s Hc Hs IH]; intros in_run; cbn; [constructor |].
  destruct (cls c); [destruct in_run |]; auto using Forall_app_2, Forall_cons_2.
Qed.

Lemma Forall_lstrip (p : N -> bool) (s : ustring) :
  Forall P s -> Forall P (lstrip p s).
Proof.
  induction 1 as [| c s Hc Hs IH]; cbn; [constructor |].
  destruct (p c); [exact IH | constructor; assumption].
Qed.

Lemma Forall_strip (p : N -> bool) (s : ustring) :
  Forall P s -> Forall P (strip p s).
Proof.
  intros Hs. unfold strip, rstrip.
  apply Forall_reverse, Forall_lstrip, Forall_reverse, Forall_lstrip, Hs.
Qed.

Lemma Forall_re_sub_prefix (lit s : ustring) :
  Forall P s -> Forall P (re_sub_prefix lit s).
Proof.
  intros Hs. unfold re_sub_prefix.
  destruct (startswith lit s); [apply Forall_drop |]; exact Hs.
Qed.

Lemma Forall_re_sub_suffix (lit s : ustring) :
  Forall P s -> Forall P (re_sub_suffix lit s).
Proof.
  intros Hs. unfold re_sub_suffix.
  destruct (endswith lit s); [apply Forall_take; exact Hs |].
  destruct (endswith (lit ++ [10]) s) eqn:Hend; [| exact Hs].
  apply Forall_app; split; [apply Forall_take; exact Hs |].
  constructor; [| constructor].
  rewrite Forall_forall in Hs. apply Hs.
  apply (endswith_elem _ _ _ Hend). apply elem_of_app. right. constructor.
Qed.

Lemma Forall_or_unknown (s : ustring) :
  Forall P UNKNOWN_ATTRIBUTE_TEXT -> Forall P s -> Forall P (or_unknown s).
Proof. intros HU Hs. destruct s; [exact HU | exact Hs]. Qed.

End Preserved.

Lemma re_sub_class_removes (cls : N -> bool) (s : ustring) :
  Forall (fun c => cls c = false) (re_sub_class cls [] s).
Proof.
  induction s as [| c s IH]; cbn; [constructor |].
  destruct (cls c) eqn:Hc; [exact IH | constructor; assumption].
Qed.

Lemma sub_runs_removes (cls : N -> bool) (repl s : ustring) (in_run : bool) :
  Forall (fun c => cls c = false) repl ->
  Forall (fun c => cls c = false) (sub_runs cls repl in_run s).
Proof.
  intros Hrepl. revert in_run.
  induction s as [| c s IH]; intros in_run; cbn; [constructor |].
  destruct (cls c) eqn:Hc; [destruct in_run |]; auto using Forall_app_2, Forall_cons_2.
Qed.

Lemma re_sub_class_id (cls : N -> bool) (repl s : ustring) :
  Forall (fun c => cls c = false) s -> re_sub_class cls repl s = s.
Proof.
  induction 1 as [| c s Hc Hs IH]; cbn; [reflexivity |]. rewrite Hc, IH. reflexivity.
Qed.

Lemma sub_runs_id (cls : N -> bool) (repl s : ustring) (in_run : bool) :
  Forall (fun c => cls c = false) s -> sub_runs cls repl in_run s = s.
Proof.
  intros Hs. revert in_run.
  induction Hs as [| c s Hc Hs IH]; intros in_run; cbn; [reflexivity |].
  rewrite Hc, IH. reflexivity.
Qed.

Lemma legal_unknown : legal UNKNOWN_ATTRIBUTE_TEXT.
Proof. unfold legal. repeat constructor. Qed.

Lemma illegal_underscore : Forall (fun c => illegal c = false) (u "_").
Proof. repeat constructor. Qed.

Lemma illegal_or_space_illegal (c : N) :
  illegal_or_space c = false -> illegal c = false.
Proof. unfold illegal_or_space. intros H. apply orb_false_elim in H as [H _]. exact H. Qed.

Lemma legal_company_name_cleaned (s : ustring) : legal (company_name_cleaned s).
Proof.
  unfold legal, company_name_cleaned.
  assert (Hstrip : Forall (fun c => illegal c = false)
            (strip is_underscore
               (re_sub_class_plus separator (u "_")
                  (re_sub_suffix (u ".com")
                     (re_sub_prefix (u "www.") (re_sub_class illegal [] s)))))).
  { apply Forall_strip, Forall_sub_runs; [exact illegal_underscore |].
    apply Forall_re_sub_suffix, Forall_re_sub_prefix, re_sub_class_removes. }
  destruct (_ <? _)%nat; [apply Forall_take |]; exact Hstrip.
Qed.

Lemma legal_invoice_number_cleaned (s : ustring) : legal (invoice_number_cleaned s).
Proof.
  unfold legal, invoice_number_cleaned.
  apply Forall_re_sub_class; [constructor |].
  eapply Forall_impl; [apply re_sub_class_removes | exact illegal_or_space_illegal].
Qed.

Lemma legal_invoice_total_cleaned (s : ustring) : legal (invoice_total_cleaned s).
Proof.
  unfold legal, invoice_total_cleaned.
  apply Forall_re_sub_class; [constructor |].
  apply Forall_sub_runs; [constructor |]. apply re_sub_class_removes.
Qed.

(** ** Digits *)

Lemma illegal_spec (c : N) :
  illegal c = true -> c ∈ [60; 62; 58; 34; 47; 92; 124; 63; 42].
Proof.
  unfold illegal, char_in. intros Hc.
  apply existsb_exists in Hc as (x & Hx & Heq). apply N.eqb_eq in Heq. subst x.
  apply list_elem_of_In. exact Hx.
Qed.

Lemma ascii_digit_not_illegal (c : N) : in_range 48 57 c = true -> illegal c = false.
Proof.
  unfold in_range. intros Hc. apply andb_prop in Hc as [Hlo Hhi].
  apply N.leb_le in Hlo, Hhi.
  destruct (illegal c) eqn:Hill; [| reflexivity].
  apply illegal_spec in Hill. rewrite !elem_of_cons, elem_of_nil in Hill. lia.
Qed.

Lemma nonascii_not_illegal (c : N) : 128 <= c -> illegal c = false.
Proof.
  intros Hc. destruct (illegal c) eqn:Hill; [| reflexivity].
  apply illegal_spec in Hill. rewrite !elem_of_cons, elem_of_nil in Hill. lia.
Qed.

Lemma str_of_uint_digits (d : uint) :
  Forall (fun c => in_range 48 57 c = true) (u (NilEmpty.string_of_uint d)).
Proof. induction d; cbn [NilEmpty.string_of_uint u]; constructor; auto. Qed.

Lemma str_of_N_digits (n : N) :
  Forall (fun c => in_range 48 57 c = true) (str_of_N n).
Proof.
  unfold str_of_N, NilZero.string_of_uint.
  destruct (N.to_uint n); try apply str_of_uint_digits. repeat constructor.
Qed.

Lemma legal_str_of_N (n : N) : legal (str_of_N n).
Proof.
  eapply Forall_impl; [apply str_of_N_digits | exact ascii_digit_not_illegal].
Qed.

Lemma str_of_N_nonempty (n : N) : str_of_N n <> [].
Proof.
  unfold str_of_N, NilZero.string_of_uint.
  destruct (N.to_uint n); cbn; discriminate.
Qed.

Lemma Forall_zfill (P : N -> Prop) (width : nat) (s : ustring) :
  P 48 -> Forall P s -> Forall P (zfill width s).
Proof.
  intros H0 Hs. unfold zfill. destruct (_ <=? _)%nat; [exact Hs |].
  assert (Hfill : forall k, Forall P (repeat 48 k))
    by (intros k; apply Forall_forall; intros x Hx%list_elem_of_In%repeat_spec;
        subst; exact H0).
  destruct Hs as [| c r Hc Hr]; [apply Hfill |].
  destruct (_ || _).
  - constructor; [exact Hc |]. apply Forall_app; split; [apply Hfill | exact Hr].
  - apply Forall_app; split; [apply Hfill | constructor; assumption].
Qed.

Section Dates.
Context {tables : UnicodeTables}.

Lemma char_isdigit_not_illegal (c : N) : char_isdigit c = true -> illegal c = false.
Proof.
  unfold char_isdigit, digit_class_of. destruct (N.ltb_spec c 128) as [Hlt | Hge].
  - destruct (in_range 48 57 c) eqn:Hr; [intros _ | discriminate].
    apply ascii_digit_not_illegal, Hr.
  - intros _. apply nonascii_not_illegal, Hge.
Qed.

Lemma str_isdigit_legal (g : ustring) : str_isdigit g = true -> legal g.
Proof.
  unfold str_isdigit, legal. destruct g as [| c g]; [discriminate |].
  intros Hall. rewrite forallb_forall in Hall. apply Forall_forall.
  intros x Hx. apply char_isdigit_not_illegal, Hall, list_elem_of_In, Hx.
Qed.

Lemma legal_dash : legal (u "-").
Proof. repeat constructor. Qed.

Lemma reformat_legal (groups : captures) (r : ustring) :
  reformat groups = Some r -> legal r /\ r <> [].
Proof.
  unfold reformat.
  destruct groups as [| g0 [| g1 [| g2 [| ? ?]]]]; try discriminate.
  destruct (str_isdigit g0) eqn:H0; [| discriminate].
  destruct (str_isdigit g1) eqn:H1; [| discriminate].
  destruct (str_isdigit g2) eqn:H2; [| discriminate]. cbn [andb].
  apply str_isdigit_legal in H0, H1, H2.
  pose proof legal_dash as Hdash. pose proof legal_str_of_N as Hstr.
  unfold legal in *.
  assert (Hz : illegal 48 = false) by reflexivity.
  destruct (_ =? _)%nat.
  - intros Heq. apply (inj Some) in Heq. subst r. split.
    + rewrite !Forall_app.
      repeat split; try assumption; apply Forall_zfill; assumption.
    + intros Hnil. apply app_eq_nil in Hnil as [_ Hnil]. discriminate Hnil.
  - destruct (py_int g2) as [n |]; [| discriminate].
    intros Heq. apply (inj Some) in Heq. subst r. split.
    + rewrite !Forall_app.
      repeat split; try assumption; try apply Hstr; apply Forall_zfill; assumption.
    + intros Hnil. apply app_eq_nil in Hnil as [_ Hnil]. discriminate Hnil.
Qed.

Lemma try_patterns_reformat (patterns : list regex) (date r : ustring) :
  try_patterns patterns date = Some r -> exists groups, reformat groups = Some r.
Proof.
  induction patterns as [| p ps IH]; cbn; [discriminate |].
  destruct (re_search p date) as [groups |]; [| exact IH].
  destruct (reformat groups) as [r' |] eqn:Href; [| exact IH].
  intros [= <-]. eauto.
Qed.

Lemma legal_date_cleaned (s : ustring) : legal (date_cleaned s).
Proof.
  unfold legal, date_cleaned.
  apply Forall_sub_runs; [exact illegal_underscore |].
  apply Forall_strip, re_sub_class_removes.
Qed.

Lemma or_unknown_nonempty (s : ustring) : or_unknown s <> [].
Proof. destruct s; discriminate. Qed.

Lemma or_unknown_empty : or_unknown [] = UNKNOWN_ATTRIBUTE_TEXT.
Proof. reflexivity. Qed.

Lemma unknown_nonempty : UNKNOWN_ATTRIBUTE_TEXT <> [].
Proof. discriminate. Qed.

End Dates.

(** ** The matcher *)

Lemma backtrack_eq (n lo : nat) (try : nat -> option (list (list N))) :
  backtrack n lo try =
    if (n <? lo)%nat then None
    else match try n with
         | Some r => Some r
         | None => match n with
                   | O => None
                   | S n' => backtrack n' lo try
                   end
         end.
Proof. destruct n; reflexivity. Qed.

Lemma backtrack_Some (n lo : nat) (try : nat -> option (list (list N)))
    (r : list (list N)) :
  backtrack n lo try = Some r -> exists j, (lo <= j <= n)%nat /\ try j = Some r.
Proof.
  induction n as [| n IH]; rewrite backtrack_eq.
  - destruct (Nat.ltb_spec 0 lo); [discriminate |].
    destruct (try 0%nat) eqn:Htry; [| discriminate].
    intros [= <-]. exists 0%nat. split; [lia | exact Htry].
  - destruct (Nat.ltb_spec (S n) lo); [discriminate |].
    destruct (try (S n)) eqn:Htry;
      [intros [= <-]; exists (S n); split; [lia | exact Htry] |].
    intros Hrest. apply IH in Hrest as (j & Hj & Hrest).
    exists j. split; [lia | exact Hrest].
Qed.

Lemma count_prefix_take (cls : N -> bool) (hi : nat) (s : ustring) (j : nat) :
  (j <= count_prefix cls hi s)%nat ->
  Forall (fun c => cls c = true) (take j s) /\ (j <= length s)%nat /\ (j <= hi)%nat.
Proof.
  assert (Hzero : forall s' h, Forall (fun c => cls c = true) (take 0 s')
                               /\ (0 <= length s')%nat /\ (0 <= h)%nat).
  { intros s' h. rewrite take_0. split; [constructor | lia]. }
  revert s j. induction hi as [| hi IH]; intros s j; cbn [count_prefix].
  - intros Hj. assert (j = 0%nat) as -> by lia. apply Hzero.
  - destruct s as [| c s].
    + intros Hj. assert (j = 0%nat) as -> by lia. apply Hzero.
    + destruct (cls c) eqn:Hc.
      * destruct j as [| j]; [intros _; apply Hzero |]. intros Hj.
        destruct (IH s j ltac:(lia)) as (Hall & Hlen & Hhi).
        cbn [take length]. split; [constructor; assumption | lia].
      * intros Hj. assert (j = 0%nat) as -> by lia. apply Hzero.
Qed.

Section Matcher.
Context {tables : UnicodeTables}.

Lemma rmatch_Rep (cls : N -> bool) (lo : nat) (hi : option nat)
    (k : cont) (s : ustring) (gs r : captures) :
  rmatch (Rep cls lo hi) k s gs = Some r ->
  exists j, (lo <= j <= length s)%nat /\ (forall h, hi = Some h -> (j <= h)%nat)
            /\ Forall (fun c => cls c = true) (take j s)
            /\ k (drop j s) gs = Some r.
Proof.
  cbn [rmatch]. intros Hb. apply backtrack_Some in Hb as (j & [Hlo Hcount] & Hk).
  apply count_prefix_take in Hcount as (Hall & Hlen & Hhi).
  exists j. repeat split; try assumption.
  intros h ->. exact Hhi.
Qed.

Lemma rmatch_digits (lo hi : nat) (k : cont) (s : ustring) (gs r : captures) :
  rmatch (digits lo hi) k s gs = Some r ->
  exists g s', digit_group lo hi g /\ k s' (gs ++ [g]) = Some r.
Proof.
  unfold digits. cbn [rmatch]. intros Hb.
  apply backtrack_Some in Hb as (j & [Hlo Hcount] & Hk).
  apply count_prefix_take in Hcount as (Hall & Hlen & Hhi). cbn in Hhi.
  rewrite length_drop in Hk.
  replace (length s - (length s - j))%nat with j in Hk by lia.
  exists (take j s), (drop j s). split; [| exact Hk].
  split; [rewrite length_take; lia | exact Hall].
Qed.

Lemma rmatch_slash_or_dash (k : cont) (s : ustring) (gs r : captures) :
  rmatch slash_or_dash k s gs = Some r -> exists s', k s' gs = Some r.
Proof.
  unfold slash_or_dash, one. intros Hm.
  apply rmatch_Rep in Hm as (j & _ & _ & _ & Hk). eauto.
Qed.

Lemma re_search_Some (r : regex) (s : ustring) (gs : captures) :
  re_search r s = Some gs ->
  exists s', rmatch r (fun _ gs => Some gs) s' [] = Some gs.
Proof.
  induction s as [| c s IH]; cbn [re_search].
  - destruct (rmatch r _ [] []) eqn:Hm; [| discriminate]. intros [= <-]. eauto.
  - destruct (rmatch r _ (c :: s) []) eqn:Hm; [intros [= <-]; eauto | exact IH].
Qed.

Lemma re_search_mdy (s : ustring) (gs : captures) :
  re_search pattern_mdy s = Some gs ->
  exists g1 g2 g3, gs = [g1; g2; g3]
    /\ digit_group 1 2 g1 /\ digit_group 1 2 g2 /\ digit_group 2 4 g3.
Proof.
  intros Hs. apply re_search_Some in Hs as (s' & Hm).
  unfold pattern_mdy, seq_all in Hm. cbn [foldr] in Hm.
  change (rmatch (Seq ?a ?b) ?k) with (rmatch a (rmatch b k)) in Hm.
  apply rmatch_digits in Hm as (g1 & s1 & Hg1 & Hm).
  change (rmatch (Seq ?a ?b) ?k) with (rmatch a (rmatch b k)) in Hm.
  apply rmatch_slash_or_dash in Hm as (s2 & Hm).
  change (rmatch (Seq ?a ?b) ?k) with (rmatch a (rmatch b k)) in Hm.
  apply rmatch_digits in Hm as (g2 & s3 & Hg2 & Hm).
  change (rmatch (Seq ?a ?b) ?k) with (rmatch a (rmatch b k)) in Hm.
  apply rmatch_slash_or_dash in Hm as (s4 & Hm).
  apply rmatch_digits in Hm as (g3 & s5 & Hg3 & Hm).
  injection Hm as <-. exists g1, g2, g3. split; [reflexivity | auto].
Qed.

Lemma re_search_ymd (s : ustring) (gs : captures) :
  re_search pattern_ymd s = Some gs ->
  exists g1 g2 g3, gs = [g1; g2; g3]
    /\ digit_group 2 4 g1 /\ digit_group 1 2 g2 /\ digit_group 1 2 g3.
Proof.
  intros Hs. apply re_search_Some in Hs as (s' & Hm).
  unfold pattern_ymd, seq_all in Hm. cbn [foldr] in Hm.
  change (rmatch (Seq ?a ?b) ?k) with (rmatch a (rmatch b k)) in Hm.
  apply rmatch_digits in Hm as (g1 & s1 & Hg1 & Hm).
  change (rmatch (Seq ?a ?b) ?k) with (rmatch a (rmatch b k)) in Hm.
  apply rmatch_slash_or_dash in Hm as (s2 & Hm).
  change (rmatch (Seq ?a ?b) ?k) with (rmatch a (rmatch b k)) in Hm.
  apply rmatch_digits in Hm as (g2 & s3 & Hg2 & Hm).
  change (rmatch (Seq ?a ?b) ?k) with (rmatch a (rmatch b k)) in Hm.
  apply rmatch_slash_or_dash in Hm as (s4 & Hm).
  apply rmatch_digits in Hm as (g3 & s5 & Hg3 & Hm).
  injection Hm as <-. exists g1, g2, g3. split; [reflexivity | auto].
Qed.

(** *** Groups of decimal digits pass the guards of the [try] block *)

Lemma re_digit_isdigit (c : N) : re_digit c = true -> char_isdigit c = true.
Proof. unfold re_digit, char_isdigit. destruct (digit_class_of c); easy. Qed.

Lemma digit_group_isdigit (lo hi : nat) (g : ustring) :
  (1 <= lo)%nat -> digit_group lo hi g -> str_isdigit g = true.
Proof.
  intros Hlo [Hlen Hall]. unfold str_isdigit.
  destruct g as [| c g]; [cbn in Hlen; lia |].
  apply forallb_forall. intros x Hx. apply re_digit_isdigit.
  rewrite Forall_forall in Hall. apply Hall, list_elem_of_In, Hx.
Qed.

Lemma int_digits_total (g : ustring) (acc : N) :
  Forall (fun c => re_digit c = true) g -> exists n, int_digits acc g = Some n.
Proof.
  intros Hall. revert acc.
  induction Hall as [| c g Hc Hall IH]; intros acc; cbn; [eauto |].
  unfold re_digit in Hc. destruct (digit_class_of c); try discriminate. apply IH.
Qed.

Lemma digit_group_int (lo hi : nat) (g : ustring) :
  (1 <= lo)%nat -> digit_group lo hi g -> exists n, py_int g = Some n.
Proof.
  intros Hlo [Hlen Hall]. unfold py_int.
  destruct g as [| c g]; [cbn in Hlen; lia |]. apply int_digits_total, Hall.
Qed.

Lemma reformat_digit_groups (g1 g2 g3 : ustring) (l1 h1 l2 h2 l3 h3 : nat) :
  (1 <= l1)%nat -> (1 <= l2)%nat -> (1 <= l3)%nat ->
  digit_group l1 h1 g1 -> digit_group l2 h2 g2 -> digit_group l3 h3 g3 ->
  exists n, py_int g3 = Some n
            /\ reformat [g1; g2; g3] = Some (numeric_result g1 g2 g3 n).
Proof.
  intros Hl1 Hl2 Hl3 Hg1 Hg2 Hg3.
  destruct (digit_group_int _ _ _ Hl3 Hg3) as [n Hn]. exists n. split; [exact Hn |].
  unfold reformat, numeric_result, expand_year.
  rewrite (digit_group_isdigit _ _ _ Hl1 Hg1), (digit_group_isdigit _ _ _ Hl2 Hg2),
    (digit_group_isdigit _ _ _ Hl3 Hg3), Hn.
  cbn [andb]. destruct (length g3 =? 4)%nat; reflexivity.
Qed.

Lemma clean_date_numeric_match (date : ustring) (groups : captures) :
  date <> UNKNOWN_ATTRIBUTE_TEXT ->
  numeric_match date = Some groups ->
  exists g1 g2 g3 n,
    groups = [g1; g2; g3] /\ py_int g3 = Some n
    /\ clean_date date = numeric_result g1 g2 g3 n.
Proof.
  intros Hne Hmatch. unfold clean_date. case_decide; [contradiction |].
  unfold numeric_match in Hmatch. unfold date_patterns. cbn [try_patterns].
  destruct (re_search pattern_mdy date) as [gs |] eqn:Hmdy.
  - injection Hmatch as ->.
    destruct (re_search_mdy _ _ Hmdy) as (g1 & g2 & g3 & -> & Hg1 & Hg2 & Hg3).
    destruct (reformat_digit_groups g1 g2 g3 1 2 1 2 2 4
                ltac:(lia) ltac:(lia) ltac:(lia) Hg1 Hg2 Hg3) as (n & Hn & Href).
    rewrite Href. exists g1, g2, g3, n. auto.
  - rewrite Hmatch.
    destruct (re_search_ymd _ _ Hmatch) as (g1 & g2 & g3 & -> & Hg1 & Hg2 & Hg3).
    destruct (reformat_digit_groups g1 g2 g3 2 4 1 2 1 2
                ltac:(lia) ltac:(lia) ltac:(lia) Hg1 Hg2 Hg3) as (n & Hn & Href).
    rewrite Href. exists g1, g2, g3, n. auto.
Qed.

End Matcher.

(** ** Sentinel *)

(** C4: each of the four cleaning functions returns the sentinel UNKNOWN
    unchanged when it is applied to the sentinel. *)
Theorem cleaners_preserve_sentinel {tables : UnicodeTables} :
  clean_company_name UNKNOWN_ATTRIBUTE_TEXT = UNKNOWN_ATTRIBUTE_TEXT
  /\ clean_invoice_number UNKNOWN_ATTRIBUTE_TEXT = UNKNOWN_ATTRIBUTE_TEXT
  /\ clean_invoice_total UNKNOWN_ATTRIBUTE_TEXT = UNKNOWN_ATTRIBUTE_TEXT
  /\ clean_date UNKNOWN_ATTRIBUTE_TEXT = UNKNOWN_ATTRIBUTE_TEXT.
Proof.
  unfold clean_company_name, clean_invoice_number, clean_invoice_total, clean_date.
  repeat split; case_decide; congruence.
Qed.

(** C10: the input UNKNOWN? is not the sentinel, its stripped form is not
    empty, and that stripped form, which [clean_invoice_number] returns, is
    exactly the sentinel. *)
Theorem invoice_number_collides_with_sentinel :
  exists s : ustring,
    s = u "UNKNOWN?"
    /\ s <> UNKNOWN_ATTRIBUTE_TEXT
    /\ invoice_number_cleaned s <> []
    /\ invoice_number_cleaned s = UNKNOWN_ATTRIBUTE_TEXT
    /\ clean_invoice_number s = UNKNOWN_ATTRIBUTE_TEXT.
Proof.
  exists (u "UNKNOWN?"). repeat split; try discriminate; vm_compute; reflexivity.
Qed.

(** ** NameBuilder *)

Lemma limit_length_short (filename : ustring) :
  (length filename <= 200)%nat -> limit_length filename = filename.
Proof.
  intros Hlen. unfold limit_length.
  destruct (Nat.ltb_spec 200 (length filename)); [lia | reflexivity].
Qed.

Lemma limit_length_long (filename : ustring) :
  (200 < length filename)%nat -> limit_length filename = take 200 filename ++ u ".pdf".
Proof.
  intros Hlen. unfold limit_length.
  destruct (Nat.ltb_spec 200 (length filename)); [reflexivity | lia].
Qed.

Lemma candidate_name_eq (now : datetime) (r : InvoiceRecord) :
  candidate_name now r =
    or_default (company_name r) (u "UnknownCompany") ++ u "_"
    ++ or_default (invoice_number r) (u "NoNumber") ++ u "_"
    ++ or_default (date r) (strftime_Ymd now) ++ u "_"
    ++ or_default (invoice_total r) (u "NoAmount") ++ u ".pdf".
Proof.
  unfold candidate_name, components_of, or_default.
  repeat case_decide; try contradiction; cbn [app join];
    rewrite <- ?app_assoc; reflexivity.
Qed.

Lemma zfill_length (width : nat) (s : ustring) :
  length (zfill width s) = Nat.max width (length s).
Proof.
  unfold zfill. destruct (Nat.leb_spec width (length s)) as [Hle | Hlt]; [lia |].
  destruct s as [| c r]; cbn [length] in *.
  - rewrite repeat_length. lia.
  - destruct ((c =? 43) || (c =? 45)); cbn [length];
      rewrite length_app, repeat_length; cbn [length]; lia.
Qed.

Lemma str_of_N_length_small (n : N) :
  (n < 100 -> (length (str_of_N n) <= 2)%nat)
  /\ (n < 10000 -> (length (str_of_N n) <= 4)%nat).
Proof.
  assert (Hall : forallb (fun k => (length (str_of_N (N.of_nat k)) <=? 4)%nat
                                   && ((100 <=? k)%nat
                                       || (length (str_of_N (N.of_nat k)) <=? 2)%nat))
                         (seq 0 (N.to_nat 10000)) = true) by (vm_compute; reflexivity).
  rewrite forallb_forall in Hall.
  assert (Hin : n < 10000 -> In (N.to_nat n) (seq 0 (N.to_nat 10000)))
    by (intros; apply in_seq; lia).
  split; intros Hn.
  - specialize (Hall _ (Hin ltac:(lia))). rewrite N2Nat.id in Hall.
    apply andb_prop in Hall as [_ Hall]. apply orb_prop in Hall as [Hall | Hall].
    + apply Nat.leb_le in Hall. lia.
    + apply Nat.leb_le in Hall. exact Hall.
  - specialize (Hall _ (Hin Hn)). rewrite N2Nat.id in Hall.
    apply andb_prop in Hall as [Hall _]. apply Nat.leb_le in Hall. exact Hall.
Qed.

(** For a valid clock reading the text has the shape YYYY-MM-DD. *)
Lemma strftime_Ymd_length (now : datetime) :
  valid_datetime now -> length (strftime_Ymd now) = 10%nat.
Proof.
  intros (Hy & Hm & Hd). unfold strftime_Ymd.
  rewrite !length_app, !zfill_length. cbn [length u].
  destruct (str_of_N_length_small (year now)) as [_ Hy4].
  destruct (str_of_N_length_small (month now)) as [Hm2 _].
  destruct (str_of_N_length_small (day now)) as [Hd2 _].
  assert (year now < 10000) as Hy' by lia. apply Hy4 in Hy'.
  assert (month now < 100) as Hm' by lia. apply Hm2 in Hm'.
  assert (day now < 100) as Hd' by lia. apply Hd2 in Hd'.
  lia.
Qed.

(** C1: the candidate name is the four components company_name,
    invoice_number, date, invoice_total in this order, joined with an
    underscore and followed by .pdf, where a field equal to the sentinel is
    replaced by UnknownCompany, NoNumber, the current date as YYYY-MM-DD and
    NoAmount; [create_new_name] returns it through its length check, which
    leaves a name of at most 200 characters as it is.  The record of the
    example yields Acme_INV123_2024-01-05_100.00.pdf and the record with
    four sentinels yields UnknownCompany_NoNumber_<today>_NoAmount.pdf. *)
Theorem create_new_name_joins_components (now : datetime) (r : InvoiceRecord) :
  let joined :=
    or_default (company_name r) (u "UnknownCompany") ++ u "_"
    ++ or_default (invoice_number r) (u "NoNumber") ++ u "_"
    ++ or_default (date r) (strftime_Ymd now) ++ u "_"
    ++ or_default (invoice_total r) (u "NoAmount") ++ u ".pdf" in
  create_new_name now r = limit_length joined
  /\ ((length joined <= 200)%nat -> create_new_name now r = joined)
  /\ create_new_name now acme_record = u "Acme_INV123_2024-01-05_100.00.pdf"
  /\ (valid_datetime now ->
      length (strftime_Ymd now) = 10%nat
      /\ create_new_name now unknown_record =
           u "UnknownCompany_NoNumber_" ++ strftime_Ymd now ++ u "_NoAmount.pdf").
Proof.
  intros joined. unfold create_new_name. rewrite !candidate_name_eq.
  split; [reflexivity |]. split; [apply limit_length_short |].
  split; [reflexivity |]. intros Hvalid.
  pose proof (strftime_Ymd_length now Hvalid) as Hlen.
  split; [exact Hlen |].
  unfold unknown_record, or_default; cbn [company_name invoice_number invoice_total date].
  repeat case_decide; try congruence.
  revert Hlen. generalize (strftime_Ymd now). intros today Hlen.
  rewrite limit_length_short.
  - vm_compute. reflexivity.
  - rewrite !length_app, Hlen. apply Nat.leb_le. vm_compute. reflexivity.
Qed.

Lemma create_new_name_joins_components_witness :
  (length (u "Acme_INV123_2024-01-05_100.00.pdf") <= 200)%nat
  /\ valid_datetime {| year := 2026; month := 11; day := 3 |}
  /\ create_new_name {| year := 2026; month := 11; day := 3 |} acme_record
     = u "Acme_INV123_2024-01-05_100.00.pdf"
  /\ create_new_name {| year := 2026; month := 11; day := 3 |} unknown_record
     = u "UnknownCompany_NoNumber_2026-11-03_NoAmount.pdf".
Proof.
  pose proof (create_new_name_joins_components
                {| year := 2026; month := 11; day := 3 |} acme_record) as Hthm.
  cbv zeta in Hthm. destruct Hthm as (_ & Hshort & _ & Hunknown).
  assert (Hvalid : valid_datetime {| year := 2026; month := 11; day := 3 |})
    by (unfold valid_datetime; cbn [year month day]; lia).
  assert (Hlen : (length (u "Acme_INV123_2024-01-05_100.00.pdf") <= 200)%nat)
    by (apply Nat.leb_le; vm_compute; reflexivity).
  split; [exact Hlen |]. split; [exact Hvalid |]. split.
  - apply Hshort. exact Hlen.
  - apply (proj2 (Hunknown Hvalid)).
Defined.

(** C3: when the candidate has more than 200 characters the result is its
    first 200 characters followed by .pdf; in every case the result ends
    with .pdf, is not empty and has at most 204 characters. *)
Theorem create_new_name_truncates (now : datetime) (r : InvoiceRecord) :
  ((200 < length (candidate_name now r))%nat ->
     create_new_name now r = take 200 (candidate_name now r) ++ u ".pdf")
  /\ (exists stem, create_new_name now r = stem ++ u ".pdf")
  /\ create_new_name now r <> []
  /\ (length (create_new_name now r) <= 204)%nat.
Proof.
  unfold create_new_name.
  split; [apply limit_length_long |].
  destruct (Nat.le_gt_cases (length (candidate_name now r)) 200) as [Hle | Hgt].
  - rewrite (limit_length_short _ Hle). repeat split.
    + eexists. unfold candidate_name. reflexivity.
    + unfold candidate_name. intros Hnil. apply app_eq_nil in Hnil as [_ Hnil].
      discriminate Hnil.
    + lia.
  - rewrite (limit_length_long _ Hgt). repeat split.
    + eexists. reflexivity.
    + intros Hnil. apply app_eq_nil in Hnil as [_ Hnil]. discriminate Hnil.
    + rewrite length_app, length_take.
      change (length (u ".pdf")) with 4%nat. lia.
Qed.

Lemma create_new_name_truncates_witness :
  (200 < length (candidate_name {| year := 2026; month := 11; day := 3 |} long_record))%nat
  /\ create_new_name {| year := 2026; month := 11; day := 3 |} long_record
     = take 200 (candidate_name {| year := 2026; month := 11; day := 3 |} long_record)
       ++ u ".pdf".
Proof.
  assert (Hlong : (200 < length (candidate_name {| year := 2026; month := 11; day := 3 |}
                                   long_record))%nat)
    by (apply Nat.ltb_lt; vm_compute; reflexivity).
  split; [exact Hlong |].
  apply (proj1 (create_new_name_truncates _ long_record)). exact Hlong.
Defined.

(** ** Field cleaning *)

Lemma legal_safe (s : ustring) : legal s <-> safe s.
Proof.
  unfold legal, safe. rewrite Forall_forall. split.
  - intros Hall c Hc Hin. specialize (Hall c Hin).
    assert (illegal c = true) as Hill; [| congruence].
    apply existsb_exists. exists c. split; [apply list_elem_of_In, Hc | apply N.eqb_refl].
  - intros Hsafe c Hin. destruct (illegal c) eqn:Hill; [| reflexivity].
    exfalso. apply (Hsafe c); [| exact Hin].
    apply existsb_exists in Hill as (x & Hx & Heq). apply N.eqb_eq in Heq. subst x.
    apply list_elem_of_In, Hx.
Qed.

Lemma legal_clean_date {tables : UnicodeTables} (s : ustring) : legal (clean_date s).
Proof.
  unfold clean_date. case_decide; [subst; exact legal_unknown |].
  destruct (try_patterns date_patterns s) as [r |] eqn:Htry.
  - apply try_patterns_reformat in Htry as [groups Href].
    apply (reformat_legal _ _ Href).
  - apply Forall_or_unknown; [exact legal_unknown | apply legal_date_cleaned].
Qed.

(** C2: when a numeric date pattern matches an input other than the
    sentinel, its three groups g1, g2, g3 decide the result: with a third
    group of length 4 it is g1-zeropad2(g2)-zeropad2(g3), and otherwise g3 is
    read as a number n and the result is year-zeropad2(g1)-zeropad2(g2) with
    year = 2000 + n for n < 50 and 1900 + n else.  So 03/15/2024 gives
    03-15-2024, 49 expands to 2049 and 50 to 1950. *)
Theorem clean_date_numeric_branch {tables : UnicodeTables} :
  (forall (date : ustring) (groups : captures),
     date <> UNKNOWN_ATTRIBUTE_TEXT ->
     numeric_match date = Some groups ->
     exists g1 g2 g3 n,
       groups = [g1; g2; g3] /\ py_int g3 = Some n
       /\ clean_date date =
            if (length g3 =? 4)%nat
            then g1 ++ u "-" ++ zfill 2 g2 ++ u "-" ++ zfill 2 g3
            else str_of_N (if n <? 50 then n + 2000 else n + 1900)
                 ++ u "-" ++ zfill 2 g1 ++ u "-" ++ zfill 2 g2)
  /\ clean_date (u "03/15/2024") = u "03-15-2024"
  /\ (numeric_match (u "1/2/49") = Some [u "1"; u "2"; u "49"]
      /\ py_int (u "49") = Some 49
      /\ clean_date (u "1/2/49") = u "2049-01-02")
  /\ (numeric_match (u "1/2/50") = Some [u "1"; u "2"; u "50"]
      /\ py_int (u "50") = Some 50
      /\ clean_date (u "1/2/50") = u "1950-01-02").
Proof.
  split; [| repeat split; vm_compute; reflexivity].
  intros date groups Hne Hmatch.
  destruct (clean_date_numeric_match date groups Hne Hmatch)
    as (g1 & g2 & g3 & n & Hgroups & Hn & Hclean).
  exists g1, g2, g3, n. repeat split; assumption.
Qed.

Lemma clean_date_numeric_branch_witness :
  u "03/15/2024" <> UNKNOWN_ATTRIBUTE_TEXT
  /\ numeric_match (tables := ascii_tables) (u "03/15/2024")
     = Some [u "03"; u "15"; u "2024"]
  /\ exists g1 g2 g3 n,
       [u "03"; u "15"; u "2024"] = [g1; g2; g3]
       /\ py_int (tables := ascii_tables) g3 = Some n
       /\ clean_date (tables := ascii_tables) (u "03/15/2024") =
            if (length g3 =? 4)%nat
            then g1 ++ u "-" ++ zfill 2 g2 ++ u "-" ++ zfill 2 g3
            else str_of_N (if n <? 50 then n + 2000 else n + 1900)
                 ++ u "-" ++ zfill 2 g1 ++ u "-" ++ zfill 2 g2.
Proof.
  assert (Hne : u "03/15/2024" <> UNKNOWN_ATTRIBUTE_TEXT) by discriminate.
  assert (Hmatch : numeric_match (tables := ascii_tables) (u "03/15/2024")
                   = Some [u "03"; u "15"; u "2024"]) by (vm_compute; reflexivity).
  split; [exact Hne |]. split; [exact Hmatch |].
  exact (proj1 (@clean_date_numeric_branch ascii_tables) _ _ Hne Hmatch).
Defined.

(** C7: whatever the input, the output of each of the four cleaning
    functions contains none of the nine illegal characters; for
    [clean_date] this holds for what the numeric branch returns and for what
    the sanitising fallback returns. *)
Theorem cleaners_output_safe {tables : UnicodeTables} (s : ustring) :
  safe (clean_company_name s)
  /\ safe (clean_invoice_number s)
  /\ safe (clean_invoice_total s)
  /\ safe (clean_date s)
  /\ (forall groups r, reformat groups = Some r -> safe r)
  /\ safe (or_unknown (date_cleaned s)).
Proof.
  rewrite <- !legal_safe.
  unfold clean_company_name, clean_invoice_number, clean_invoice_total.
  repeat split.
  - case_decide; [subst; exact legal_unknown |].
    apply Forall_or_unknown; [exact legal_unknown | apply legal_company_name_cleaned].
  - case_decide; [subst; exact legal_unknown |].
    apply Forall_or_unknown; [exact legal_unknown | apply legal_invoice_number_cleaned].
  - case_decide; [subst; exact legal_unknown |].
    apply Forall_or_unknown; [exact legal_unknown | apply legal_invoice_total_cleaned].
  - apply legal_clean_date.
  - intros groups r Href. apply legal_safe. apply (reformat_legal _ _ Href).
  - apply Forall_or_unknown; [exact legal_unknown | apply legal_date_cleaned].
Qed.

Lemma cleaners_output_safe_witness :
  reformat (tables := ascii_tables) [u "03"; u "15"; u "2024"] = Some (u "03-15-2024")
  /\ safe (u "03-15-2024").
Proof.
  assert (Href : reformat (tables := ascii_tables) [u "03"; u "15"; u "2024"]
                 = Some (u "03-15-2024")) by (vm_compute; reflexivity).
  split; [exact Href |].
  destruct (@cleaners_output_safe ascii_tables []) as (_ & _ & _ & _ & Hnum & _).
  exact (Hnum _ _ Href).
Defined.

(** C8: each cleaning function is a total function of its input string, its
    result is never the empty string, and when the cleaned text it has
    computed is empty it returns the sentinel. *)
Theorem cleaners_never_empty {tables : UnicodeTables} (s : ustring) :
  (clean_company_name s <> [] /\ clean_invoice_number s <> []
   /\ clean_invoice_total s <> [] /\ clean_date s <> [])
  /\ (company_name_cleaned s = [] -> clean_company_name s = UNKNOWN_ATTRIBUTE_TEXT)
  /\ (invoice_number_cleaned s = [] -> clean_invoice_number s = UNKNOWN_ATTRIBUTE_TEXT)
  /\ (invoice_total_cleaned s = [] -> clean_invoice_total s = UNKNOWN_ATTRIBUTE_TEXT)
  /\ (try_patterns date_patterns s = None -> date_cleaned s = [] ->
      clean_date s = UNKNOWN_ATTRIBUTE_TEXT).
Proof.
  unfold clean_company_name, clean_invoice_number, clean_invoice_total, clean_date.
  split; [repeat split |]; [.. | repeat split].
  - case_decide; [subst; discriminate | apply or_unknown_nonempty].
  - case_decide; [subst; discriminate | apply or_unknown_nonempty].
  - case_decide; [subst; discriminate | apply or_unknown_nonempty].
  - case_decide; [subst; discriminate |].
    destruct (try_patterns date_patterns s) as [r |] eqn:Htry;
      [| apply or_unknown_nonempty].
    apply try_patterns_reformat in Htry as [groups Href].
    apply (reformat_legal _ _ Href).
  - intros ->. case_decide; [assumption | reflexivity].
  - intros ->. case_decide; [assumption | reflexivity].
  - intros ->. case_decide; [assumption | reflexivity].
  - intros -> ->. case_decide; [assumption | reflexivity].
Qed.

Lemma cleaners_never_empty_witness :
  company_name_cleaned (u "?-.") = []
  /\ clean_company_name (u "?-.") = UNKNOWN_ATTRIBUTE_TEXT
  /\ try_patterns (tables := ascii_tables) (date_patterns (tables := ascii_tables))
        (u " ? ") = None
  /\ date_cleaned (u " ? ") = []
  /\ clean_date (tables := ascii_tables) (u " ? ") = UNKNOWN_ATTRIBUTE_TEXT.
Proof.
  assert (Hc : company_name_cleaned (u "?-.") = []) by (vm_compute; reflexivity).
  assert (Ht : try_patterns (tables := ascii_tables) (date_patterns (tables := ascii_tables))
        (u " ? ") = None)
    by (vm_compute; reflexivity).
  assert (Hd : date_cleaned (u " ? ") = []) by (vm_compute; reflexivity).
  destruct (@cleaners_never_empty ascii_tables (u "?-.")) as (_ & Hcompany & _).
  destruct (@cleaners_never_empty ascii_tables (u " ? ")) as (_ & _ & _ & _ & Hdate).
  split; [exact Hc |]. split; [exact (Hcompany Hc) |].
  split; [exact Ht |]. split; [exact Hd |]. exact (Hdate Ht Hd).
Defined.

(** ** Idempotence of [clean_company_name] *)

Lemma lstrip_split (p : N -> bool) (s : ustring) :
  exists l, s = l ++ lstrip p s.
Proof.
  induction s as [| c s [l IH]]; cbn; [exists []; reflexivity |].
  destruct (p c); [exists (c :: l); cbn; congruence | exists []; reflexivity].
Qed.

Lemma lstrip_head (p : N -> bool) (s : ustring) (c : N) :
  head (lstrip p s) = Some c -> p c = false.
Proof.
  induction s as [| x s IH]; cbn; [discriminate |].
  destruct (p x) eqn:Hx; [exact IH | cbn; congruence].
Qed.

Lemma lstrip_id (p : N -> bool) (s : ustring) :
  (forall c, head s = Some c -> p c = false) -> lstrip p s = s.
Proof.
  destruct s as [| x s]; cbn; [reflexivity |].
  intros Hhead. rewrite (Hhead x eq_refl). reflexivity.
Qed.

Lemma rstrip_split (p : N -> bool) (s : ustring) :
  exists r, s = rstrip p s ++ r.
Proof.
  unfold rstrip. destruct (lstrip_split p (reverse s)) as [l Hl].
  exists (reverse l). apply (f_equal reverse) in Hl.
  rewrite reverse_involutive, reverse_app in Hl. exact Hl.
Qed.

Lemma rstrip_last (p : N -> bool) (s : ustring) (c : N) :
  last (rstrip p s) = Some c -> p c = false.
Proof. unfold rstrip. rewrite last_reverse. apply lstrip_head. Qed.

Lemma rstrip_id (p : N -> bool) (s : ustring) :
  (forall c, last s = Some c -> p c = false) -> rstrip p s = s.
Proof.
  intros Hlast. unfold rstrip. rewrite lstrip_id; [apply reverse_involutive |].
  intros c. rewrite head_reverse. apply Hlast.
Qed.

Lemma head_app_Some (s t : ustring) (c : N) :
  head s = Some c -> head (s ++ t) = Some c.
Proof. destruct s; [discriminate | exact id]. Qed.

Lemma strip_head (p : N -> bool) (s : ustring) (c : N) :
  head (strip p s) = Some c -> p c = false.
Proof.
  unfold strip. intros Hhead. apply (lstrip_head p s).
  destruct (rstrip_split p (lstrip p s)) as [r Hr]. rewrite Hr.
  apply head_app_Some, Hhead.
Qed.

Lemma strip_last (p : N -> bool) (s : ustring) (c : N) :
  last (strip p s) = Some c -> p c = false.
Proof. apply rstrip_last. Qed.

Lemma strip_length (p : N -> bool) (s : ustring) :
  (length (strip p s) <= length s)%nat.
Proof.
  unfold strip. destruct (lstrip_split p s) as [l Hl].
  destruct (rstrip_split p (lstrip p s)) as [r Hr].
  rewrite Hl at 2. rewrite Hr at 2. rewrite !length_app. lia.
Qed.

Lemma strip_id (p : N -> bool) (s : ustring) :
  (forall c, head s = Some c -> p c = false) ->
  (forall c, last s = Some c -> p c = false) -> strip p s = s.
Proof.
  intros Hhead Hlast. unfold strip. rewrite (lstrip_id _ _ Hhead). apply rstrip_id, Hlast.
Qed.

Lemma head_take_Some (n : nat) (s : ustring) (c : N) :
  head (take n s) = Some c -> head s = Some c.
Proof. destruct n, s; cbn; congruence. Qed.

Lemma company_name_cleaned_shape (s : ustring) : cleaned_shape (company_name_cleaned s).
Proof.
  unfold company_name_cleaned.
  set (t := strip is_underscore _).
  assert (Hlegal : Forall (fun x => illegal x = false) t).
  { apply Forall_strip, Forall_sub_runs; [exact illegal_underscore |].
    apply Forall_re_sub_suffix, Forall_re_sub_prefix, re_sub_class_removes. }
  assert (Hsep : Forall (fun x => separator x = false) t).
  { apply Forall_strip, sub_runs_removes. repeat constructor. }
  assert (Hhead : forall x, head t = Some x -> is_underscore x = false)
    by (intros x; apply strip_head).
  destruct (Nat.ltb_spec 50 (length t)) as [Hlong | Hshort].
  - split.
    + apply Forall_take, Hlegal.
    + apply Forall_take, Hsep.
    + intros x Hx. apply Hhead. apply (head_take_Some _ _ _ Hx).
    + rewrite length_take. lia.
  - split; assumption.
Qed.

Lemma dot_is_separator : separator 46 = true.
Proof. reflexivity. Qed.

(** On a string of that shape the steps before [strip] change nothing. *)
Lemma cleaned_shape_steps (c : ustring) :
  cleaned_shape c ->
  company_name_cleaned c = strip is_underscore c.
Proof.
  intros [Hlegal Hsep Hhead Hlen]. unfold company_name_cleaned.
  rewrite (re_sub_class_id _ _ _ Hlegal).
  assert (Hdot : 46 ∉ c).
  { intros Hin. rewrite Forall_forall in Hsep. specialize (Hsep _ Hin).
    rewrite dot_is_separator in Hsep. discriminate. }
  assert (Hprefix : re_sub_prefix (u "www.") c = c).
  { unfold re_sub_prefix. destruct (startswith (u "www.") c) eqn:Hstart; [| reflexivity].
    exfalso. apply Hdot. apply (startswith_elem _ _ _ Hstart).
    change (u "www.") with [119; 119; 119; 46]. set_solver. }
  assert (Hsuffix : re_sub_suffix (u ".com") c = c).
  { unfold re_sub_suffix.
    destruct (endswith (u ".com") c) eqn:Hend.
    - exfalso. apply Hdot. apply (endswith_elem _ _ _ Hend).
      change (u ".com") with [46; 99; 111; 109]. set_solver.
    - destruct (endswith (u ".com" ++ [10]) c) eqn:Hend'; [| reflexivity].
      exfalso. apply Hdot. apply (endswith_elem _ _ _ Hend').
      change (u ".com") with [46; 99; 111; 109]. set_solver. }
  rewrite Hprefix, Hsuffix. unfold re_sub_class_plus.
  rewrite (sub_runs_id _ _ _ _ Hsep).
  pose proof (strip_length is_underscore c) as Hstrip.
  destruct (Nat.ltb_spec 50 (length (strip is_underscore c))); [lia | reflexivity].
Qed.

Lemma unknown_last : last UNKNOWN_ATTRIBUTE_TEXT = Some 78.
Proof. reflexivity. Qed.

Lemma clean_company_name_other (s : ustring) :
  s <> UNKNOWN_ATTRIBUTE_TEXT ->
  clean_company_name s = or_unknown (company_name_cleaned s).
Proof. intros Hs. unfold clean_company_name. case_decide; [contradiction | reflexivity]. Qed.

Lemma clean_company_name_unknown :
  clean_company_name UNKNOWN_ATTRIBUTE_TEXT = UNKNOWN_ATTRIBUTE_TEXT.
Proof. reflexivity. Qed.

Lemma clean_company_name_idempotent_iff (s : ustring) :
  s <> UNKNOWN_ATTRIBUTE_TEXT ->
  clean_company_name (clean_company_name s) = clean_company_name s
  <-> ~ ends_with_underscore (clean_company_name s).
Proof.
  intros Hs. unfold ends_with_underscore.
  pose proof (company_name_cleaned_shape s) as Hshape.
  rewrite (clean_company_name_other s Hs).
  destruct (company_name_cleaned s) as [| x c] eqn:Hc; cbn [or_unknown].
  - rewrite clean_company_name_unknown, unknown_last.
    split; [intros _; discriminate | reflexivity].
  - destruct (decide (x :: c = UNKNOWN_ATTRIBUTE_TEXT)) as [HU | HU].
    + rewrite HU, clean_company_name_unknown, unknown_last.
      split; [intros _; discriminate | reflexivity].
    + rewrite (clean_company_name_other _ HU), (cleaned_shape_steps _ Hshape). split.
      * intros Hfix Hlast.
        destruct (strip is_underscore (x :: c)) as [| y t] eqn:Hstrip;
          cbn [or_unknown] in Hfix.
        -- rewrite <- Hfix, unknown_last in Hlast. discriminate.
        -- pose proof (strip_last is_underscore (x :: c) 95) as Hl.
           rewrite Hstrip, Hfix in Hl. specialize (Hl Hlast). discriminate.
      * intros Hlast. rewrite strip_id; [reflexivity | apply Hshape |].
        intros y Hy. unfold is_underscore. apply N.eqb_neq. congruence.
Qed.

(** C5, as the code has it: on an input other than the sentinel, cleaning a
    cleaned company name again changes nothing exactly when the cleaned name
    does not end with an underscore; a cleaned name that ends with an
    underscore has been cut at 50 characters. *)
Theorem clean_company_name_idempotent_unless_underscore (s : ustring) :
  s <> UNKNOWN_ATTRIBUTE_TEXT ->
  (clean_company_name (clean_company_name s) = clean_company_name s
   <-> ~ ends_with_underscore (clean_company_name s))
  /\ (ends_with_underscore (clean_company_name s) ->
      length (clean_company_name s) = 50%nat).
Proof.
  intros Hs. split; [apply clean_company_name_idempotent_iff, Hs |].
  rewrite (clean_company_name_other s Hs). unfold ends_with_underscore.
  destruct (company_name_cleaned s) as [| x c] eqn:Hc; cbn [or_unknown].
  - rewrite unknown_last. discriminate.
  - rewrite <- Hc. unfold company_name_cleaned.
    set (t := strip is_underscore _).
    destruct (Nat.ltb_spec 50 (length t)) as [Hlong | Hshort].
    + intros _. rewrite length_take. lia.
    + intros Hlast. apply strip_last in Hlast. discriminate.
Qed.

Lemma clean_company_name_idempotent_unless_underscore_witness :
  u "www.Acme-Corp. Inc.com" <> UNKNOWN_ATTRIBUTE_TEXT
  /\ clean_company_name (u "www.Acme-Corp. Inc.com") = u "Acme_Corp_Inc"
  /\ clean_company_name (clean_company_name (u "www.Acme-Corp. Inc.com"))
     = clean_company_name (u "www.Acme-Corp. Inc.com").
Proof.
  assert (Hs : u "www.Acme-Corp. Inc.com" <> UNKNOWN_ATTRIBUTE_TEXT) by discriminate.
  split; [exact Hs |]. split; [vm_compute; reflexivity |].
  apply (proj1 (clean_company_name_idempotent_unless_underscore _ Hs)).
  unfold ends_with_underscore. vm_compute. discriminate.
Defined.

(** C5 as stated fails: a name of 49 letters followed by an underscore and
    one more letter is cut after the underscore, and the second cleaning
    strips that underscore. *)
Lemma clean_company_name_not_idempotent :
  repeat 97 49 ++ u "_b" <> UNKNOWN_ATTRIBUTE_TEXT
  /\ clean_company_name (repeat 97 49 ++ u "_b") = repeat 97 49 ++ u "_"
  /\ clean_company_name (clean_company_name (repeat 97 49 ++ u "_b")) = repeat 97 49
  /\ clean_company_name (clean_company_name (repeat 97 49 ++ u "_b"))
     <> clean_company_name (repeat 97 49 ++ u "_b").
Proof.
  split; [vm_compute; discriminate |].
  split; [vm_compute; reflexivity |].
  split; [vm_compute; reflexivity |].
  vm_compute. discriminate.
Qed.

(** ** Collision resolution *)

Lemma u_inj (s t : string) : u s = u t -> s = t.
Proof.
  revert t. induction s as [| a s IH]; intros [| b t]; cbn; try discriminate.
  - reflexivity.
  - intros [= Hab Hst]. f_equal; [| apply IH, Hst].
    rewrite <- (ascii_N_embedding a), <- (ascii_N_embedding b), Hab. reflexivity.
Qed.

Lemma N_to_uint_nonnil (n : N) : N.to_uint n <> Nil.
Proof. destruct n; [discriminate | apply DecimalPos.Unsigned.to_uint_nonnil]. Qed.

Lemma str_of_N_inj (n m : N) : str_of_N n = str_of_N m -> n = m.
Proof.
  unfold str_of_N. intros Heq%u_inj.
  apply (f_equal NilZero.uint_of_string) in Heq.
  rewrite !NilZero.usu in Heq by apply N_to_uint_nonnil.
  injection Heq as Heq. apply DecimalN.Unsigned.to_uint_inj, Heq.
Qed.

Lemma os_path_join_prefix (a b : ustring) :
  os_path_join a b = if startswith (u "/") b then b else join_prefix a ++ b.
Proof.
  unfold os_path_join, join_prefix. destruct (startswith (u "/") b); [reflexivity |].
  destruct a; [reflexivity |]. destruct (endswith _ _); [reflexivity |].
  rewrite <- app_assoc. reflexivity.
Qed.

Lemma name_with_counter_absolute (base ext : ustring) (j k : nat) :
  startswith (u "/") (name_with_counter base ext j)
  = startswith (u "/") (name_with_counter base ext k).
Proof. unfold name_with_counter. destruct base; reflexivity. Qed.

Lemma name_with_counter_inj (directory base ext : ustring) (j k : nat) :
  os_path_join directory (name_with_counter base ext j)
  = os_path_join directory (name_with_counter base ext k) -> j = k.
Proof.
  rewrite !os_path_join_prefix, (name_with_counter_absolute base ext j k).
  intros Heq.
  assert (Hname : name_with_counter base ext j = name_with_counter base ext k).
  { destruct (startswith _ _); [exact Heq | apply (app_inv_head _ _ _ Heq)]. }
  unfold name_with_counter in Hname.
  apply app_inv_head, app_inv_head, app_inv_tail, str_of_N_inj in Hname. lia.
Qed.

Section Collision.
Context {world : Type} {os : OS world}.

Lemma collision_loop_Some (w : world) (directory new_name : ustring)
    (fuel k : nat) (p : ustring) :
  collision_loop fuel w directory (os_path_splitext new_name).1
    (os_path_splitext new_name).2 (S k) (candidate_path directory new_name k) = Some p ->
  exists m, (k <= m)%nat /\ p = candidate_path directory new_name m
    /\ os_path_exists p w = false
    /\ forall j, (k <= j < m)%nat ->
         os_path_exists (candidate_path directory new_name j) w = true.
Proof.
  revert k. induction fuel as [| fuel IH]; intros k; cbn [collision_loop];
    [discriminate |].
  destruct (os_path_exists (candidate_path directory new_name k) w) eqn:Hex.
  - change (os_path_join directory (name_with_counter _ _ (S k)))
      with (candidate_path directory new_name (S k)).
    intros Hloop. apply IH in Hloop as (m & Hm & -> & Hfree & Hbusy).
    exists m. repeat split; [lia | exact Hfree |].
    intros j Hj. destruct (decide (j = k)) as [-> | Hne]; [exact Hex |].
    apply Hbusy. lia.
  - intros [= <-]. exists k. repeat split; [lia | exact Hex |]. intros j Hj. lia.
Qed.

Lemma collision_loop_None (w : world) (directory new_name : ustring) (fuel k : nat) :
  collision_loop fuel w directory (os_path_splitext new_name).1
    (os_path_splitext new_name).2 (S k) (candidate_path directory new_name k) = None ->
  forall j, (k <= j < k + fuel)%nat ->
    os_path_exists (candidate_path directory new_name j) w = true.
Proof.
  revert k. induction fuel as [| fuel IH]; intros k; cbn [collision_loop];
    [intros _ j Hj; lia |].
  destruct (os_path_exists (candidate_path directory new_name k) w) eqn:Hex;
    [| discriminate].
  change (os_path_join directory (name_with_counter _ _ (S k)))
    with (candidate_path directory new_name (S k)).
  intros Hloop j Hj. destruct (decide (j = k)) as [-> | Hne]; [exact Hex |].
  apply (IH _ Hloop). lia.
Qed.

(** Not all of the candidates 1, ..., n + 1 exist when n paths exist. *)
Lemma candidates_exhaust (w : world) (directory new_name : ustring) :
  ~ (forall j, (1 <= j < 2 + size (existing w))%nat ->
       os_path_exists (candidate_path directory new_name j) w = true).
Proof.
  intros Hall.
  set (l := candidate_path directory new_name <$> seq 1 (S (size (existing w)))).
  assert (Hnodup : NoDup l).
  { apply NoDup_fmap_2_strong; [| apply NoDup_seq].
    intros j k Hj%elem_of_seq Hk%elem_of_seq.
    destruct j as [| j]; [lia |]. destruct k as [| k]; [lia |].
    apply name_with_counter_inj. }
  assert (Hsub : list_to_set (C := gset (list N)) l ⊆ existing w).
  { intros p Hp%elem_of_list_to_set. unfold l in Hp.
    apply list_elem_of_fmap in Hp as (j & -> & Hj%elem_of_seq).
    specialize (Hall j ltac:(lia)). unfold os_path_exists in Hall.
    apply bool_decide_eq_true in Hall. exact Hall. }
  apply subseteq_size in Hsub. rewrite size_list_to_set in Hsub by exact Hnodup.
  unfold l in Hsub. rewrite length_fmap, length_seq in Hsub. lia.
Qed.

Lemma resolve_collision_first_free (w : world) (old_path new_name : ustring) :
  exists m,
    resolve_collision w old_path new_name
      = Some (candidate_path (os_path_dirname old_path) new_name m)
    /\ os_path_exists (candidate_path (os_path_dirname old_path) new_name m) w = false
    /\ forall j, (j < m)%nat ->
         os_path_exists (candidate_path (os_path_dirname old_path) new_name j) w = true.
Proof.
  unfold resolve_collision.
  destruct (os_path_splitext new_name) as [base ext] eqn:Hsplit.
  pose proof (collision_loop_Some w (os_path_dirname old_path) new_name
                (2 + size (existing w)) 0) as HSome.
  pose proof (collision_loop_None w (os_path_dirname old_path) new_name
                (2 + size (existing w)) 0) as HNone.
  rewrite Hsplit in HSome, HNone. cbn [fst snd candidate_path] in HSome, HNone.
  destruct (collision_loop _ _ _ _ _ _ _) as [p |].
  - destruct (HSome p eq_refl) as (m & _ & -> & Hfree & Hbusy).
    exists m. repeat split; [exact Hfree |]. intros j Hj. apply Hbusy. lia.
  - exfalso. apply (candidates_exhaust w (os_path_dirname old_path) new_name).
    intros j Hj. apply (HNone eq_refl). lia.
Qed.

End Collision.

(** C6: with the directory as a finite set of existing paths, the loop of
    [rename_file] ends and settles on the first candidate that does not
    exist in the sequence name, base_1.ext, base_2.ext, ..., and
    [rename_file] returns that path when [os.rename] succeeds.  When X.pdf
    exists and X_1.pdf does not, X.pdf resolves to X_1.pdf; when both exist
    and X_2.pdf does not, it resolves to X_2.pdf. *)
Theorem rename_file_first_free {world : Type} {os : OS world}
    (w : world) (old_path new_name : ustring) :
  let directory := os_path_dirname old_path in
  let candidate := candidate_path directory new_name in
  (candidate 0%nat = os_path_join directory new_name
   /\ forall k, candidate (S k) =
        os_path_join directory
          ((os_path_splitext new_name).1 ++ u "_" ++ str_of_N (N.of_nat (S k))
           ++ (os_path_splitext new_name).2))
  /\ (exists m,
        resolve_collision w old_path new_name = Some (candidate m)
        /\ os_path_exists (candidate m) w = false
        /\ (forall j, (j < m)%nat -> os_path_exists (candidate j) w = true)
        /\ (forall w', os_rename old_path (candidate m) w = Returns w' ->
              rename_file old_path new_name w = Some (Returns (w', candidate m))))
  /\ (os_path_exists (os_path_join directory (u "X.pdf")) w = true ->
      os_path_exists (os_path_join directory (u "X_1.pdf")) w = false ->
      resolve_collision w old_path (u "X.pdf")
        = Some (os_path_join directory (u "X_1.pdf")))
  /\ (os_path_exists (os_path_join directory (u "X.pdf")) w = true ->
      os_path_exists (os_path_join directory (u "X_1.pdf")) w = true ->
      os_path_exists (os_path_join directory (u "X_2.pdf")) w = false ->
      resolve_collision w old_path (u "X.pdf")
        = Some (os_path_join directory (u "X_2.pdf"))).
Proof.
  intros directory candidate.
  split; [split; [reflexivity | intros k; reflexivity] |].
  split.
  - destruct (resolve_collision_first_free w old_path new_name)
      as (m & Hres & Hfree & Hbusy).
    exists m. repeat split; try assumption.
    intros w' Hrename. unfold rename_file. rewrite Hres.
    fold directory. fold candidate. rewrite Hrename. reflexivity.
  - destruct (resolve_collision_first_free w old_path (u "X.pdf"))
      as (m & Hres & Hfree & Hbusy).
    fold directory in Hres, Hfree, Hbusy.
    assert (H0 : candidate_path directory (u "X.pdf") 0 = os_path_join directory (u "X.pdf"))
      by reflexivity.
    assert (H1 : candidate_path directory (u "X.pdf") 1
                 = os_path_join directory (u "X_1.pdf")) by reflexivity.
    assert (H2 : candidate_path directory (u "X.pdf") 2
                 = os_path_join directory (u "X_2.pdf")) by reflexivity.
    split.
    + intros Hx Hx1. rewrite Hres. f_equal.
      destruct m as [| [| m]].
      * rewrite H0, Hx in Hfree. discriminate.
      * exact H1.
      * specialize (Hbusy 1%nat ltac:(lia)). rewrite H1, Hx1 in Hbusy. discriminate.
    + intros Hx Hx1 Hx2. rewrite Hres. f_equal.
      destruct m as [| [| [| m]]].
      * rewrite H0, Hx in Hfree. discriminate.
      * rewrite H1, Hx1 in Hfree. discriminate.
      * exact H2.
      * specialize (Hbusy 2%nat ltac:(lia)). rewrite H2, Hx2 in Hbusy. discriminate.
Qed.

Lemma rename_file_first_free_witness :
  os_path_exists (os := silent_os) (u "d/X.pdf") crowded_world = true
  /\ os_path_exists (os := silent_os) (u "d/X_1.pdf") crowded_world = true
  /\ os_path_exists (os := silent_os) (u "d/X_2.pdf") crowded_world = false
  /\ resolve_collision (os := silent_os) crowded_world (u "d/a.png") (u "X.pdf")
     = Some (u "d/X_2.pdf")
  /\ exists w',
       os_rename (OS := silent_os) (u "d/a.png") (u "d/X_2.pdf") crowded_world
         = Returns w'
       /\ rename_file (os := silent_os) (u "d/a.png") (u "X.pdf") crowded_world
          = Some (Returns (w', u "d/X_2.pdf")).
Proof.
  pose proof (rename_file_first_free (os := silent_os) crowded_world
                (u "d/a.png") (u "X.pdf")) as Hthm.
  cbv zeta in Hthm. destruct Hthm as (_ & (m & Hm & _ & _ & Hrename) & _ & Hthm).
  assert (H0 : os_path_exists (os := silent_os) (u "d/X.pdf") crowded_world = true)
    by (vm_compute; reflexivity).
  assert (H1 : os_path_exists (os := silent_os) (u "d/X_1.pdf") crowded_world = true)
    by (vm_compute; reflexivity).
  assert (H2 : os_path_exists (os := silent_os) (u "d/X_2.pdf") crowded_world = false)
    by (vm_compute; reflexivity).
  pose proof (Hthm H0 H1 H2) as Hres.
  split; [exact H0 |]. split; [exact H1 |]. split; [exact H2 |].
  split; [exact Hres |].
  assert (Hpath : candidate_path (os_path_dirname (u "d/a.png")) (u "X.pdf") m
                  = os_path_join (os_path_dirname (u "d/a.png")) (u "X_2.pdf"))
    by congruence.
  rewrite Hpath in Hrename.
  destruct (os_rename (OS := silent_os) (u "d/a.png") (u "d/X_2.pdf") crowded_world)
    as [w' | e] eqn:Hos; [| vm_compute in Hos; discriminate Hos].
  exists w'. split; [reflexivity |]. exact (Hrename w' Hos).
Defined.

(** ** Batch processing *)

Section Batch.
Context {world : Type} {os : OS world} {tables : UnicodeTables}.

Lemma rename_file_total (old_path new_name : ustring) (w : world) :
  exists r, rename_file old_path new_name w = Some r.
Proof.
  unfold rename_file.
  destruct (resolve_collision_first_free w old_path new_name) as (m & -> & _).
  eauto.
Qed.

Lemma process_single_invoice_total (file_path : ustring)
    (output_directory : option ustring) (w : world) :
  exists w' r, process_single_invoice file_path output_directory w = Some (w', r).
Proof.
  unfold process_single_invoice.
  destruct (truthy output_directory) as [d |].
  - destruct (os_makedirs d w) as [w1 | e]; [| eauto].
    destruct (shutil_copy2 _ _ w1) as [w2 | e]; eauto.
  - destruct (rename_file_total file_path
                (create_new_name (datetime_now w)
                   (clean_all (answer_invoice_questions file_path w))) w) as [r ->].
    destruct r as [[w' new_path] | e]; eauto.
Qed.

Lemma process_path_total (file_path : ustring) (output_directory : option ustring)
    (w : world) :
  exists w' r, process_path file_path output_directory w = Some (w', r).
Proof.
  unfold process_path. destruct (os_path_exists file_path w);
    [apply process_single_invoice_total | eauto].
Qed.


(** The results of the loop are appended to those it starts with. *)
Lemma process_loop_results (file_paths : list ustring)
    (output_directory : option ustring) (w : world) (results : list ProcessResult) :
  process_loop file_paths output_directory w results =
    match process_loop file_paths output_directory w [] with
    | Some (w', rs) => Some (w', results ++ rs)
    | None => None
    end.
Proof.
  revert w results. induction file_paths as [| p ps IH]; intros w results;
    cbn [process_loop].
  - rewrite app_nil_r. reflexivity.
  - destruct (process_path p output_directory w) as [[w' r] |]; [| reflexivity].
    rewrite (IH w' (results ++ [r])), (IH w' ([] ++ [r])).
    destruct (process_loop ps output_directory w' []) as [[w'' rs] |]; [| reflexivity].
    rewrite <- app_assoc. reflexivity.
Qed.


Lemma process_multiple_invoices_total (file_paths : list ustring)
    (output_directory : option ustring) (w : world) :
  exists w' results,
    process_multiple_invoices file_paths output_directory w = Some (w', results)
    /\ length results = length file_paths.
Proof.
  unfold process_multiple_invoices. revert w.
  induction file_paths as [| p ps IH]; intros w; cbn [process_loop].
  - exists w, []. split; reflexivity.
  - destruct (process_path_total p output_directory w) as (w1 & r & ->).
    rewrite process_loop_results.
    destruct (IH w1) as (w' & rs & -> & Hlen).
    exists w', (([] ++ [r]) ++ rs). split; [reflexivity |].
    cbn [app length]. rewrite Hlen. reflexivity.
Qed.


Lemma process_multiple_invoices_cons (p : ustring) (ps : list ustring)
    (output_directory : option ustring) (w : world) :
  process_multiple_invoices (p :: ps) output_directory w =
    match process_path p output_directory w with
    | Some (w1, r) =>
        match process_multiple_invoices ps output_directory w1 with
        | Some (w', rs) => Some (w', r :: rs)
        | None => None
        end
    | None => None
    end.
Proof.
  unfold process_multiple_invoices. cbn [process_loop].
  destruct (process_path p output_directory w) as [[w1 r] |]; [| reflexivity].
  apply process_loop_results.
Qed.


End Batch.








(** * Further properties *)

(** ** More on the field cleaners *)

Lemma re_sub_class_filter (cls : N -> bool) (s : ustring) :
  re_sub_class cls [] s = List.filter (fun c => negb (cls c)) s.
Proof.
  induction s as [| c s IH]; cbn; [reflexivity |].
  destruct (cls c); cbn; rewrite IH; reflexivity.
Qed.

Lemma sub_runs_filter (cls : N -> bool) (s : ustring) (in_run : bool) :
  sub_runs cls [] in_run s = List.filter (fun c => negb (cls c)) s.
Proof.
  revert in_run. induction s as [| c s IH]; intros in_run; cbn; [reflexivity |].
  destruct (cls c); cbn; [destruct in_run |]; rewrite IH; reflexivity.
Qed.

Lemma filter_filter_implied (p q : N -> bool) (s : ustring) :
  (forall c, q c = true -> p c = true) ->
  List.filter q (List.filter p s) = List.filter q s.
Proof.
  intros Himp. induction s as [| c s IH]; cbn; [reflexivity |].
  destruct (p c) eqn:Hp; cbn; [rewrite IH; reflexivity |].
  destruct (q c) eqn:Hq; [| exact IH]. rewrite (Himp c Hq) in Hp. discriminate.
Qed.

Lemma filter_all (p : N -> bool) (s : ustring) :
  Forall (fun c => p c = true) s -> List.filter p s = s.
Proof. induction 1 as [| c s Hc Hs IH]; cbn; [| rewrite Hc, IH]; reflexivity. Qed.

Lemma filter_Forall_bool {A : Type} (f : A -> bool) (l : list A) :
  Forall (fun x => f x = true) (List.filter f l).
Proof.
  induction l as [| x l IH]; cbn; [constructor |].
  destruct (f x) eqn:Hx; [constructor; assumption | exact IH].
Qed.

Lemma number_char_not_illegal_or_space (c : N) :
  number_char c = true -> negb (illegal_or_space c) = true.
Proof.
  intros Hc. apply negb_true_iff. unfold illegal_or_space.
  apply orb_false_intro.
  - destruct (illegal c) eqn:Hill; [| reflexivity].
    apply illegal_spec in Hill. rewrite !elem_of_cons, elem_of_nil in Hill.
    unfold number_char, in_range in Hc.
    rewrite !orb_true_iff, !andb_true_iff, !N.leb_le, !N.eqb_eq in Hc. lia.
  - unfold number_char, is_space, in_range in *.
    rewrite !orb_true_iff, !andb_true_iff, !N.leb_le, !N.eqb_eq in Hc.
    rewrite !orb_false_iff, !andb_false_iff, !N.leb_gt, !N.eqb_neq. lia.
Qed.

Lemma total_char_not_illegal (c : N) : total_char c = true -> negb (illegal c) = true.
Proof.
  intros Hc. apply negb_true_iff.
  destruct (illegal c) eqn:Hill; [| reflexivity].
  apply illegal_spec in Hill. rewrite !elem_of_cons, elem_of_nil in Hill.
  unfold total_char, in_range in Hc.
  rewrite !orb_true_iff, !andb_true_iff, !N.leb_le, !N.eqb_eq in Hc. lia.
Qed.

Lemma total_char_not_space (c : N) : total_char c = true -> negb (is_space c) = true.
Proof.
  intros Hc. apply negb_true_iff. unfold total_char, is_space, in_range in *.
  rewrite !orb_true_iff, !andb_true_iff, !N.leb_le, !N.eqb_eq in Hc.
  rewrite !orb_false_iff, !andb_false_iff, !N.leb_gt, !N.eqb_neq. lia.
Qed.

Lemma filter_negb_negb (p : N -> bool) (s : ustring) :
  List.filter (fun c => negb (negb (p c))) s = List.filter p s.
Proof. apply List.filter_ext. intros c. apply negb_involutive. Qed.

Lemma invoice_number_cleaned_filter (s : ustring) :
  invoice_number_cleaned s = List.filter number_char s.
Proof.
  unfold invoice_number_cleaned. rewrite !re_sub_class_filter, filter_negb_negb.
  apply filter_filter_implied. exact number_char_not_illegal_or_space.
Qed.

Lemma invoice_total_cleaned_filter (s : ustring) :
  invoice_total_cleaned s = List.filter total_char s.
Proof.
  unfold invoice_total_cleaned, re_sub_class_plus.
  rewrite !re_sub_class_filter, sub_runs_filter, filter_negb_negb.
  rewrite (filter_filter_implied _ _ _ total_char_not_space).
  apply filter_filter_implied. exact total_char_not_illegal.
Qed.

(** X1: a cleaned company name has at most 50 characters, whatever the
    input. *)
Theorem clean_company_name_length (s : ustring) :
  (length (clean_company_name s) <= 50)%nat.
Proof.
  unfold clean_company_name. case_decide; [subst; cbn; lia |].
  pose proof (shape_length _ (company_name_cleaned_shape s)) as Hlen.
  destruct (company_name_cleaned s); cbn [or_unknown]; [cbn; lia | exact Hlen].
Qed.

(** X2: a cleaned company name holds no white space, hyphen or dot and does
    not begin with an underscore. *)
Theorem clean_company_name_no_separator (s : ustring) :
  Forall (fun c => is_space c = false /\ c <> 45 /\ c <> 46) (clean_company_name s)
  /\ head (clean_company_name s) <> Some 95.
Proof.
  assert (Hsep : forall t, Forall (fun c => separator c = false) t ->
                 Forall (fun c => is_space c = false /\ c <> 45 /\ c <> 46) t).
  { intros t Ht. eapply Forall_impl; [exact Ht |]. intros c Hc. unfold separator in Hc.
    rewrite !orb_false_iff, !N.eqb_neq in Hc. tauto. }
  assert (HU : Forall (fun c => separator c = false) UNKNOWN_ATTRIBUTE_TEXT)
    by (repeat constructor).
  unfold clean_company_name. case_decide; [subst; split; [auto | discriminate] |].
  destruct (company_name_cleaned_shape s) as [_ Hs Hhead _].
  destruct (company_name_cleaned s) as [| x c]; cbn [or_unknown];
    [split; [auto | discriminate] |].
  split; [auto |]. intros Hx. specialize (Hhead 95 Hx). discriminate.
Qed.

Lemma clean_invoice_number_eq (s : ustring) :
  clean_invoice_number s = or_unknown (List.filter number_char s).
Proof.
  unfold clean_invoice_number. case_decide; [subst; reflexivity |].
  rewrite invoice_number_cleaned_filter. reflexivity.
Qed.

Lemma clean_invoice_total_eq (s : ustring) :
  clean_invoice_total s = or_unknown (List.filter total_char s).
Proof.
  unfold clean_invoice_total. case_decide; [subst; reflexivity |].
  rewrite invoice_total_cleaned_filter. reflexivity.
Qed.

Lemma or_unknown_filter_again (p : N -> bool) (s : ustring) :
  Forall (fun c => p c = true) UNKNOWN_ATTRIBUTE_TEXT ->
  or_unknown (List.filter p (or_unknown (List.filter p s)))
  = or_unknown (List.filter p s).
Proof.
  intros HU. destruct (List.filter p s) as [| c t] eqn:Hf; cbn [or_unknown].
  - rewrite (filter_all _ _ HU). reflexivity.
  - pose proof (filter_Forall_bool p s) as Hall. rewrite Hf in Hall.
    rewrite (filter_all _ _ Hall). reflexivity.
Qed.

(** X3: [clean_invoice_number] keeps exactly the letters, digits, hyphens
    and underscores of its input, in their order, and returns the sentinel
    when none is left; the substitution of the illegal characters and the
    test for the sentinel change nothing. *)
Theorem clean_invoice_number_closed_form (s : ustring) :
  clean_invoice_number s = or_unknown (List.filter number_char s)
  /\ Forall (fun c => number_char c = true) (clean_invoice_number s).
Proof.
  split; [apply clean_invoice_number_eq |]. rewrite clean_invoice_number_eq.
  apply Forall_or_unknown; [repeat constructor | apply filter_Forall_bool].
Qed.

(** X4: cleaning an invoice number twice gives what cleaning it once
    gives. *)
Theorem clean_invoice_number_idempotent (s : ustring) :
  clean_invoice_number (clean_invoice_number s) = clean_invoice_number s.
Proof.
  rewrite !clean_invoice_number_eq. apply or_unknown_filter_again.
  repeat constructor.
Qed.

(** X5: [clean_invoice_total] keeps exactly the digits, dots, commas and the
    four currency signs of its input, in their order, and returns the
    sentinel when none is left; its result is the sentinel or a text made of
    those characters only. *)
Theorem clean_invoice_total_closed_form (s : ustring) :
  clean_invoice_total s = or_unknown (List.filter total_char s)
  /\ (clean_invoice_total s = UNKNOWN_ATTRIBUTE_TEXT
      \/ Forall (fun c => total_char c = true) (clean_invoice_total s)).
Proof.
  split; [apply clean_invoice_total_eq |]. rewrite clean_invoice_total_eq.
  pose proof (filter_Forall_bool total_char s) as Hall.
  destruct (List.filter total_char s); [left; reflexivity | right; exact Hall].
Qed.

(** X6: cleaning an invoice total twice gives what cleaning it once gives,
    although the sentinel holds none of the characters that a total
    keeps. *)
Theorem clean_invoice_total_idempotent (s : ustring) :
  clean_invoice_total (clean_invoice_total s) = clean_invoice_total s.
Proof.
  rewrite !clean_invoice_total_eq.
  destruct (List.filter total_char s) as [| c t] eqn:Hf; cbn [or_unknown];
    [reflexivity |].
  pose proof (filter_Forall_bool total_char s) as Hall. rewrite Hf in Hall.
  rewrite (filter_all _ _ Hall). reflexivity.
Qed.

(** ** Month names *)

Section Months.
Context {tables : UnicodeTables}.

Lemma ci_eq_plain_not_digit (p c : N) :
  plain_letter p = true -> ci_eq p c = true -> char_isdigit c = false.
Proof.
  unfold plain_letter.
  rewrite !andb_true_iff, !negb_true_iff, !N.eqb_neq. intros [[[Hletter Hi] Hk] Hs].
  unfold ci_eq. rewrite !orb_true_iff, !andb_true_iff, !N.eqb_eq.
  intros [[Heq | [Hs' _]] | [Hi' _]]; [| contradiction | contradiction].
  rewrite <- Heq in Hletter, Hi, Hk, Hs. clear Heq.
  unfold in_range in Hletter. rewrite andb_true_iff, !N.leb_le in Hletter.
  unfold tolower in Hletter, Hi, Hk, Hs.
  assert (Hc : 65 <= c <= 90 \/ 97 <= c <= 122).
  { destruct (in_range 65 90 c) eqn:Hupper.
    - unfold in_range in Hupper. rewrite andb_true_iff, !N.leb_le in Hupper. lia.
    - destruct (N.eqb_spec c 8490); [lia |]. destruct (N.eqb_spec c 304); lia. }
  unfold char_isdigit, digit_class_of.
  destruct (N.ltb_spec c 128); [| lia].
  destruct (in_range 48 57 c) eqn:Hdigit; [| reflexivity].
  unfold in_range in Hdigit. rewrite andb_true_iff, !N.leb_le in Hdigit. lia.
Qed.

Lemma ci_startswith_not_digits (a m : ustring) :
  second_letter_plain a = true -> ci_startswith a m = true -> str_isdigit m = false.
Proof.
  destruct a as [| p1 [| p2 a]]; try discriminate. cbn [second_letter_plain].
  intros Hplain. destruct m as [| c1 [| c2 m]]; cbn [ci_startswith];
    rewrite ?andb_false_r; try discriminate.
  intros H. apply andb_prop in H as [_ H]. apply andb_prop in H as [H2 _].
  cbn [str_isdigit forallb].
  rewrite (ci_eq_plain_not_digit _ _ Hplain H2), andb_false_r. reflexivity.
Qed.

Lemma ci_startswith_take (a s : ustring) :
  ci_startswith a s = true -> ci_startswith a (take (length a) s) = true.
Proof.
  revert s. induction a as [| p a IH]; intros s; [reflexivity |].
  destruct s as [| c s]; cbn; [discriminate |].
  intros H. apply andb_prop in H as [Hc Hs]. rewrite Hc, (IH _ Hs). reflexivity.
Qed.

Lemma ci_startswith_length (a s : ustring) :
  ci_startswith a s = true -> (length a <= length s)%nat.
Proof.
  revert s. induction a as [| p a IH]; intros s; cbn; [lia |].
  destruct s as [| c s]; [discriminate |].
  intros H. apply andb_prop in H as [_ Hs]. apply IH in Hs. cbn. lia.
Qed.

Lemma rmatch_Alt (alts : list ustring) (k : cont) (s : ustring) (gs r : captures) :
  rmatch (Alt alts) k s gs = Some r ->
  exists a, a ∈ alts /\ ci_startswith a s = true /\ k (drop (length a) s) gs = Some r.
Proof.
  cbn [rmatch]. induction alts as [| a alts IH]; [discriminate |].
  destruct (ci_startswith a s) eqn:Ha.
  - destruct (k (drop (length a) s) gs) as [r' |] eqn:Hk.
    + intros [= <-]. exists a. split; [left | auto].
    + intros H. destruct (IH H) as (b & Hb & Hrest). exists b. split; [right |]; auto.
  - intros H. destruct (IH H) as (b & Hb & Hrest). exists b. split; [right |]; auto.
Qed.

Lemma month_names_plain :
  forall a, a ∈ map u ["Jan"; "Feb"; "Mar"; "Apr"; "May"; "Jun";
                       "Jul"; "Aug"; "Sep"; "Oct"; "Nov"; "Dec"]%string ->
            second_letter_plain a = true.
Proof.
  assert (Hall : forallb second_letter_plain
            (map u ["Jan"; "Feb"; "Mar"; "Apr"; "May"; "Jun";
                    "Jul"; "Aug"; "Sep"; "Oct"; "Nov"; "Dec"]%string) = true)
    by (vm_compute; reflexivity).
  rewrite forallb_forall in Hall. intros a Ha. apply Hall, list_elem_of_In, Ha.
Qed.

(** The group that a month name fills never passes [isdigit]. *)
Lemma rmatch_month_name (k : cont) (s : ustring) (gs r : captures) :
  rmatch month_name k s gs = Some r ->
  exists m s', str_isdigit m = false /\ k s' (gs ++ [m]) = Some r.
Proof.
  intros H.
  change (rmatch month_name k s gs)
    with (rmatch (Alt (map u ["Jan"; "Feb"; "Mar"; "Apr"; "May"; "Jun";
                              "Jul"; "Aug"; "Sep"; "Oct"; "Nov"; "Dec"]%string))
            (fun s' gs' =>
               rmatch (Rep re_word 0 None) k s' (gs' ++ [take (length s - length s') s]))
            s gs) in H.
  apply rmatch_Alt in H as (a & Ha & Hstart & Hk).
  apply rmatch_Rep in Hk as (j & _ & _ & _ & Hk).
  rewrite length_drop in Hk.
  pose proof (ci_startswith_length _ _ Hstart) as Hlen.
  replace (length s - (length s - length a))%nat with (length a) in Hk by lia.
  eexists _, _. split; [| exact Hk].
  apply (ci_startswith_not_digits a); [apply month_names_plain, Ha |].
  apply ci_startswith_take, Hstart.
Qed.

Lemma rmatch_spaces (k : cont) (s : ustring) (gs r : captures) :
  rmatch spaces k s gs = Some r -> exists s', k s' gs = Some r.
Proof.
  unfold spaces. intros Hm. apply rmatch_Rep in Hm as (j & _ & _ & _ & Hk). eauto.
Qed.

Lemma reformat_month_second (g1 m g3 : ustring) :
  str_isdigit m = false -> reformat [g1; m; g3] = None.
Proof. intros Hm. unfold reformat. rewrite Hm, andb_false_r. reflexivity. Qed.

Lemma reformat_month_first (m g2 g3 : ustring) :
  str_isdigit m = false -> reformat [m; g2; g3] = None.
Proof. intros Hm. unfold reformat. rewrite Hm. reflexivity. Qed.

Lemma re_search_d_month_y (s : ustring) (gs : captures) :
  re_search pattern_d_month_y s = Some gs -> reformat gs = None.
Proof.
  intros Hs. apply re_search_Some in Hs as (s' & Hm).
  unfold pattern_d_month_y, seq_all in Hm. cbn [foldr] in Hm.
  change (rmatch (Seq ?a ?b) ?k) with (rmatch a (rmatch b k)) in Hm.
  apply rmatch_digits in Hm as (g1 & s1 & Hg1 & Hm).
  change (rmatch (Seq ?a ?b) ?k) with (rmatch a (rmatch b k)) in Hm.
  apply rmatch_spaces in Hm as (s2 & Hm).
  change (rmatch (Seq month_name ?b) ?k) with (rmatch month_name (rmatch b k)) in Hm.
  apply rmatch_month_name in Hm as (m & s3 & Hmonth & Hm).
  change (rmatch (Seq ?a ?b) ?k) with (rmatch a (rmatch b k)) in Hm.
  apply rmatch_spaces in Hm as (s4 & Hm).
  apply rmatch_digits in Hm as (g3 & s5 & Hg3 & Hm).
  injection Hm as <-. apply reformat_month_second, Hmonth.
Qed.

Lemma re_search_month_d_y (s : ustring) (gs : captures) :
  re_search pattern_month_d_y s = Some gs -> reformat gs = None.
Proof.
  intros Hs. apply re_search_Some in Hs as (s' & Hm).
  unfold pattern_month_d_y, seq_all in Hm. cbn [foldr] in Hm.
  change (rmatch (Seq month_name ?b) ?k) with (rmatch month_name (rmatch b k)) in Hm.
  apply rmatch_month_name in Hm as (m & s1 & Hmonth & Hm).
  change (rmatch (Seq ?a ?b) ?k) with (rmatch a (rmatch b k)) in Hm.
  apply rmatch_spaces in Hm as (s2 & Hm).
  change (rmatch (Seq ?a ?b) ?k) with (rmatch a (rmatch b k)) in Hm.
  apply rmatch_digits in Hm as (g2 & s3 & Hg2 & Hm).
  change (rmatch (Seq ?a ?b) ?k) with (rmatch a (rmatch b k)) in Hm.
  apply rmatch_Rep in Hm as (j & _ & _ & _ & Hm).
  change (rmatch (Seq ?a ?b) ?k) with (rmatch a (rmatch b k)) in Hm.
  apply rmatch_spaces in Hm as (s4 & Hm).
  apply rmatch_digits in Hm as (g3 & s5 & Hg3 & Hm).
  injection Hm as <-. apply reformat_month_first, Hmonth.
Qed.

Lemma try_patterns_month_names (date : ustring) :
  try_patterns [pattern_d_month_y; pattern_month_d_y] date = None.
Proof.
  cbn [try_patterns].
  destruct (re_search pattern_d_month_y date) as [gs |] eqn:H3;
    [rewrite (re_search_d_month_y _ _ H3) |];
    (destruct (re_search pattern_month_d_y date) as [gs' |] eqn:H4;
     [rewrite (re_search_month_d_y _ _ H4) |]); reflexivity.
Qed.

Lemma is_space_underscore : Forall (fun c => is_space c = false) (u "_").
Proof. repeat constructor. Qed.

Lemma date_cleaned_no_space (date : ustring) :
  Forall (fun c => is_space c = false) (or_unknown (date_cleaned date)).
Proof.
  apply Forall_or_unknown; [repeat constructor |].
  unfold date_cleaned, re_sub_class_plus. apply sub_runs_removes, is_space_underscore.
Qed.

(** Without a numeric match the result is that of the sanitising tail. *)
Lemma clean_date_fallback (date : ustring) :
  numeric_match date = None -> clean_date date = or_unknown (date_cleaned date).
Proof.
  intros Hnone. unfold clean_date. case_decide as HU; [subst; reflexivity |].
  unfold numeric_match in Hnone.
  destruct (re_search pattern_mdy date) eqn:H1; [discriminate |].
  unfold date_patterns. cbn [try_patterns]. rewrite H1, Hnone.
  pose proof (try_patterns_month_names date) as Hmonths.
  cbn [try_patterns] in Hmonths. rewrite Hmonths. reflexivity.
Qed.

(** X7: the two patterns with a month name never decide the result.  A date
    that no numeric pattern matches is only sanitised, even when it is
    written with the name of a month: its result is the sentinel or the
    text without illegal characters, with each run of white space turned
    into one underscore. *)
Theorem clean_date_month_names_ignored (date : ustring) :
  numeric_match date = None ->
  clean_date date = or_unknown (date_cleaned date)
  /\ Forall (fun c => is_space c = false) (clean_date date)
  /\ safe (clean_date date).
Proof.
  intros Hnone. rewrite (clean_date_fallback _ Hnone).
  split; [reflexivity |]. split; [apply date_cleaned_no_space |].
  apply legal_safe. apply Forall_or_unknown; [exact legal_unknown | apply legal_date_cleaned].
Qed.

End Months.

Lemma clean_date_month_names_ignored_witness :
  numeric_match (tables := ascii_tables) (u "15 January 2024") = None
  /\ clean_date (tables := ascii_tables) (u "15 January 2024") = u "15_January_2024"
  /\ clean_date (tables := ascii_tables) (u "January 15, 2024") = u "January_15,_2024".
Proof.
  assert (H1 : numeric_match (tables := ascii_tables) (u "15 January 2024") = None)
    by (vm_compute; reflexivity).
  assert (H2 : numeric_match (tables := ascii_tables) (u "January 15, 2024") = None)
    by (vm_compute; reflexivity).
  split; [exact H1 |]. split.
  - rewrite (proj1 (clean_date_month_names_ignored (tables := ascii_tables) _ H1)).
    vm_compute. reflexivity.
  - rewrite (proj1 (clean_date_month_names_ignored (tables := ascii_tables) _ H2)).
    vm_compute. reflexivity.
Defined.

Section Digits.
Context {tables : UnicodeTables}.

Lemma re_search_at (r : regex) (s : ustring) (gs : captures) :
  re_search r s = Some gs ->
  exists s', s' `suffix_of` s /\ rmatch r (fun _ gs => Some gs) s' [] = Some gs.
Proof.
  induction s as [| c s IH]; cbn [re_search].
  - destruct (rmatch r _ [] []) eqn:Hm; [| discriminate]. intros [= <-].
    exists []. split; [reflexivity | exact Hm].
  - destruct (rmatch r _ (c :: s) []) eqn:Hm.
    + intros [= <-]. exists (c :: s). split; [reflexivity | exact Hm].
    + intros H. destruct (IH H) as (s' & Hsuffix & Hs').
      exists s'. split; [apply suffix_cons_r, Hsuffix | exact Hs'].
Qed.

Lemma rmatch_digits_head (lo hi : nat) (k : cont) (s : ustring) (gs r : captures) :
  (1 <= lo)%nat -> rmatch (digits lo hi) k s gs = Some r ->
  exists c s0, s = c :: s0 /\ re_digit c = true.
Proof.
  intros Hlo. unfold digits. cbn [rmatch]. intros Hb.
  apply backtrack_Some in Hb as (j & [Hj Hcount] & _).
  apply count_prefix_take in Hcount as (Hall & Hlen & _).
  destruct s as [| c s0]; [cbn in Hlen; lia |].
  destruct j as [| j]; [lia |]. cbn [take] in Hall.
  exists c, s0. split; [reflexivity |]. apply (Forall_inv Hall).
Qed.

Lemma numeric_match_digit (date : ustring) (gs : captures) :
  numeric_match date = Some gs -> exists c, c ∈ date /\ re_digit c = true.
Proof.
  unfold numeric_match. intros H.
  assert (Hm : exists s' k lo hi, s' `suffix_of` date /\ (1 <= lo)%nat
               /\ rmatch (digits lo hi) k s' [] = Some gs).
  { destruct (re_search pattern_mdy date) as [gs' |] eqn:H1.
    - injection H as ->. apply re_search_at in H1 as (s' & Hsuffix & Hm).
      unfold pattern_mdy, seq_all in Hm. cbn [foldr] in Hm.
      change (rmatch (Seq ?a ?b) ?k) with (rmatch a (rmatch b k)) in Hm.
      eexists s', _, 1%nat, 2%nat. split; [exact Hsuffix |]. split; [lia | exact Hm].
    - apply re_search_at in H as (s' & Hsuffix & Hm).
      unfold pattern_ymd, seq_all in Hm. cbn [foldr] in Hm.
      change (rmatch (Seq ?a ?b) ?k) with (rmatch a (rmatch b k)) in Hm.
      eexists s', _, 2%nat, 4%nat. split; [exact Hsuffix |]. split; [lia | exact Hm]. }
  destruct Hm as (s' & k & lo & hi & [pre ->] & Hlo & Hm).
  apply (rmatch_digits_head _ _ _ _ _ _ Hlo) in Hm as (c & s0 & -> & Hc).
  exists c. split; [| exact Hc]. apply elem_of_app. right. left.
Qed.

(** X8: a date in which no character is a decimal digit is only sanitised:
    no pattern can return for it. *)
Theorem clean_date_without_digits (date : ustring) :
  Forall (fun c => re_digit c = false) date ->
  clean_date date = or_unknown (date_cleaned date).
Proof.
  intros Hnone. apply clean_date_fallback.
  destruct (numeric_match date) as [gs |] eqn:Hmatch; [| reflexivity].
  apply numeric_match_digit in Hmatch as (c & Hin & Hc).
  rewrite Forall_forall in Hnone. rewrite (Hnone c Hin) in Hc. discriminate.
Qed.

End Digits.

Lemma clean_date_without_digits_witness :
  Forall (fun c => re_digit (tables := ascii_tables) c = false) (u " due: on receipt ")
  /\ clean_date (tables := ascii_tables) (u " due: on receipt ") = u "due_on_receipt".
Proof.
  assert (H : Forall (fun c => re_digit (tables := ascii_tables) c = false)
                (u " due: on receipt "))
    by (apply Forall_forall; intros c Hc; apply list_elem_of_In in Hc;
        apply negb_true_iff; revert c Hc;
        apply (proj1 (forallb_forall
                        (fun c => negb (re_digit (tables := ascii_tables) c)) _));
        vm_compute; reflexivity).
  split; [exact H |].
  rewrite (clean_date_without_digits (tables := ascii_tables) _ H).
  vm_compute. reflexivity.
Defined.

Section Iso.
Context {tables : UnicodeTables}.

Lemma ascii_digit_re_digit (c : N) : in_range 48 57 c = true -> re_digit c = true.
Proof.
  unfold re_digit, digit_class_of. intros Hc. rewrite Hc.
  unfold in_range in Hc. apply andb_prop in Hc as [_ Hhi%N.leb_le].
  destruct (N.ltb_spec c 128); [reflexivity | lia].
Qed.

Lemma ascii_digit_not_sep (c : N) : in_range 48 57 c = true -> char_in (u "/-") c = false.
Proof.
  unfold in_range. rewrite andb_true_iff, !N.leb_le. intros Hc.
  change (u "/-") with [47; 45]. cbn [char_in existsb].
  rewrite !orb_false_iff, !N.eqb_neq. lia.
Qed.

Lemma sep_not_digit (c : N) : char_in (u "/-") c = true -> re_digit c = false.
Proof.
  change (u "/-") with [47; 45]. cbn [char_in existsb].
  rewrite !orb_true_iff, !N.eqb_eq. intros [-> | [-> | ?]]; [reflexivity | reflexivity | discriminate].
Qed.

Lemma ascii_digit_value (c : N) :
  in_range 48 57 c = true -> digit_class_of c = DecimalDigit (c - 48).
Proof.
  unfold digit_class_of. intros Hc. rewrite Hc.
  unfold in_range in Hc. apply andb_prop in Hc as [_ Hhi%N.leb_le].
  destruct (N.ltb_spec c 128); [reflexivity | lia].
Qed.

Lemma iso_mdy (y1 y2 y3 y4 s1 m1 m2 s2 d1 d2 : N) :
  Forall (fun c => in_range 48 57 c = true) [y1; y2; y3; y4; m1; m2; d1; d2] ->
  char_in (u "/-") s1 = true -> char_in (u "/-") s2 = true ->
  re_search pattern_mdy [y1; y2; y3; y4; s1; m1; m2; s2; d1; d2]
  = Some [[y3; y4]; [m1; m2]; [d1; d2]].
Proof.
  intros Hd Hs1 Hs2.
  repeat match goal with H : Forall _ (_ :: _) |- _ => apply Forall_cons in H as [? H] end.
  repeat match goal with
         | H : in_range 48 57 ?c = true |- _ =>
             pose proof (ascii_digit_re_digit c H); pose proof (ascii_digit_not_sep c H);
             clear H
         end.
  pose proof (sep_not_digit s1 Hs1). pose proof (sep_not_digit s2 Hs2).
  unfold pattern_mdy, seq_all, digits, slash_or_dash, one.
  cbn [foldr].
  repeat (cbn [re_search rmatch count_prefix length default from_option id
               backtrack drop take app Nat.ltb Nat.leb Nat.sub];
          repeat match goal with
                 | H : _ = true |- _ => rewrite H
                 | H : _ = false |- _ => rewrite H
                 end).
  reflexivity.
Qed.

Lemma two_digits_isdigit (a b : N) :
  in_range 48 57 a = true -> in_range 48 57 b = true -> str_isdigit [a; b] = true.
Proof.
  intros Ha Hb. cbn [str_isdigit forallb]. unfold char_isdigit.
  rewrite (ascii_digit_value a Ha), (ascii_digit_value b Hb). reflexivity.
Qed.

Lemma two_digits_int (a b : N) :
  in_range 48 57 a = true -> in_range 48 57 b = true ->
  py_int [a; b] = Some (10 * (a - 48) + (b - 48)).
Proof.
  intros Ha Hb. cbn [py_int int_digits].
  rewrite (ascii_digit_value a Ha), (ascii_digit_value b Hb).
  reflexivity.
Qed.

(** X9: a date written year-month-day with four digits for the year, two
    for the month and two for the day is matched by the first pattern from
    its third character on, so that the second pattern never sees it: the
    last two digits of the year come out as the month, the month as the day,
    and the day, expanded as a year of two digits, as the year. *)
Theorem clean_date_iso_reread (y1 y2 y3 y4 s1 m1 m2 s2 d1 d2 : N) :
  Forall (fun c => in_range 48 57 c = true) [y1; y2; y3; y4; m1; m2; d1; d2] ->
  (s1 = 47 \/ s1 = 45) -> (s2 = 47 \/ s2 = 45) ->
  clean_date [y1; y2; y3; y4; s1; m1; m2; s2; d1; d2]
  = str_of_N (expand_year (10 * (d1 - 48) + (d2 - 48)))
    ++ u "-" ++ [y3; y4] ++ u "-" ++ [m1; m2].
Proof.
  intros Hd Hs1 Hs2.
  assert (Hsep : forall c, c = 47 \/ c = 45 -> char_in (u "/-") c = true)
    by (intros c [-> | ->]; reflexivity).
  pose proof (iso_mdy _ _ _ _ _ _ _ _ _ _ Hd (Hsep _ Hs1) (Hsep _ Hs2)) as Hsearch.
  repeat match goal with H : Forall _ (_ :: _) |- _ => apply Forall_cons in H as [? H] end.
  unfold clean_date. case_decide as HU; [discriminate HU |].
  unfold date_patterns. cbn [try_patterns]. rewrite Hsearch.
  unfold reformat. rewrite !two_digits_isdigit by assumption.
  cbn [andb length Nat.eqb]. rewrite two_digits_int by assumption.
  reflexivity.
Qed.

End Iso.

Lemma clean_date_iso_reread_witness :
  clean_date (tables := ascii_tables) (u "2024-01-05") = u "2005-24-01".
Proof.
  change (u "2024-01-05") with [50; 48; 50; 52; 45; 48; 49; 45; 48; 53].
  rewrite (clean_date_iso_reread (tables := ascii_tables) 50 48 50 52 45 48 49 45 48 53).
  - vm_compute. reflexivity.
  - repeat constructor.
  - right. reflexivity.
  - right. reflexivity.
Defined.

(** ** From the extracted record to the file name *)

Lemma legal_clean_company_name (s : ustring) : legal (clean_company_name s).
Proof.
  unfold clean_company_name. case_decide; [subst; exact legal_unknown |].
  apply Forall_or_unknown; [exact legal_unknown | apply legal_company_name_cleaned].
Qed.

Lemma legal_clean_invoice_number (s : ustring) : legal (clean_invoice_number s).
Proof.
  unfold clean_invoice_number. case_decide; [subst; exact legal_unknown |].
  apply Forall_or_unknown; [exact legal_unknown | apply legal_invoice_number_cleaned].
Qed.

Lemma legal_clean_invoice_total (s : ustring) : legal (clean_invoice_total s).
Proof.
  unfold clean_invoice_total. case_decide; [subst; exact legal_unknown |].
  apply Forall_or_unknown; [exact legal_unknown | apply legal_invoice_total_cleaned].
Qed.

Lemma legal_strftime_Ymd (now : datetime) : legal (strftime_Ymd now).
Proof.
  unfold legal, strftime_Ymd. rewrite !Forall_app.
  repeat split; try exact legal_dash;
    apply Forall_zfill; try reflexivity; apply legal_str_of_N.
Qed.

Lemma legal_or_default (field fallback : ustring) :
  legal field -> legal fallback -> legal (or_default field fallback).
Proof. intros Hf Hd. unfold or_default. case_decide; assumption. Qed.

Lemma legal_limit_length (filename : ustring) :
  legal filename -> legal (limit_length filename).
Proof.
  intros Hf. unfold limit_length. destruct (_ <? _)%nat; [| exact Hf].
  apply Forall_app. split; [apply Forall_take, Hf | repeat constructor].
Qed.

Lemma legal_create_new_name (now : datetime) (r : InvoiceRecord) :
  legal (company_name r) -> legal (invoice_number r) ->
  legal (invoice_total r) -> legal (date r) ->
  legal (create_new_name now r).
Proof.
  intros Hc Hn Ht Hd. unfold create_new_name. apply legal_limit_length.
  rewrite candidate_name_eq. unfold legal. rewrite !Forall_app.
  repeat split;
    try (apply legal_or_default; [assumption |]);
    try apply legal_strftime_Ymd; repeat constructor.
Qed.

Lemma legal_create_new_name_cleaned {tables : UnicodeTables}
    (now : datetime) (r : InvoiceRecord) :
  legal (create_new_name now (clean_all r)).
Proof.
  apply legal_create_new_name; cbn [clean_all company_name invoice_number
                                      invoice_total date].
  - apply legal_clean_company_name.
  - apply legal_clean_invoice_number.
  - apply legal_clean_invoice_total.
  - apply legal_clean_date.
Qed.

Lemma legal_no_slash (s : ustring) : legal s -> 47 ∉ s.
Proof.
  intros Hlegal Hin. unfold legal in Hlegal. rewrite Forall_forall in Hlegal.
  specialize (Hlegal _ Hin). discriminate.
Qed.

(** X10: whatever the extracted record and the clock, the name built from
    the cleaned record holds none of the nine illegal characters, the cut at
    200 characters included; it has no slash, so it names a file and not a
    path. *)
Theorem create_new_name_of_cleaned_safe {tables : UnicodeTables}
    (now : datetime) (r : InvoiceRecord) :
  safe (create_new_name now (clean_all r))
  /\ 47 ∉ create_new_name now (clean_all r).
Proof.
  pose proof (legal_create_new_name_cleaned now r) as Hlegal.
  split; [apply legal_safe, Hlegal | apply legal_no_slash, Hlegal].
Qed.

Section Answers.
Context {world : Type} {os : OS world} {tables : UnicodeTables}.





End Answers.


(** ** Paths *)

Lemma rfind_from_absent (c : N) (s : ustring) (i last : Z) :
  c ∉ s -> rfind_from c s i last = last.
Proof.
  revert i last. induction s as [| x s IH]; intros i last Hc; cbn; [reflexivity |].
  apply not_elem_of_cons in Hc as [Hx Hs].
  destruct (N.eqb_spec x c); [congruence |]. apply IH, Hs.
Qed.

Lemma rfind_from_last (c : N) (a b : ustring) (i last : Z) :
  c ∉ b -> rfind_from c (a ++ c :: b) i last = (i + Z.of_nat (length a))%Z.
Proof.
  intros Hb. revert i last. induction a as [| x a IH]; intros i last; cbn.
  - rewrite N.eqb_refl, (rfind_from_absent _ _ _ _ Hb). lia.
  - rewrite IH. lia.
Qed.

Lemma rfind_absent (c : N) (s : ustring) : c ∉ s -> rfind c s = (-1)%Z.
Proof. apply rfind_from_absent. Qed.

Lemma rfind_last (c : N) (a b : ustring) :
  c ∉ b -> rfind c (a ++ c :: b) = Z.of_nat (length a).
Proof. intros Hb. unfold rfind. rewrite (rfind_from_last _ _ _ _ _ Hb). lia. Qed.

Lemma rfind_cases (c : N) (s : ustring) :
  ((c ∉ s) /\ rfind c s = (-1)%Z)
  \/ (exists a b, s = a ++ c :: b /\ (c ∉ b) /\ rfind c s = Z.of_nat (length a)).
Proof.
  destruct (decide (c ∈ s)) as [Hin | Hout]; [right | left; auto using rfind_absent].
  apply list_elem_of_split_r in Hin as (a & b & -> & Hb).
  exists a, b. auto using rfind_last.
Qed.

Lemma drop_after (a b : ustring) (c : N) : drop (S (length a)) (a ++ c :: b) = b.
Proof. induction a as [| x a IH]; [reflexivity | exact IH]. Qed.

Lemma os_path_splitext_app (p : ustring) :
  (os_path_splitext p).1 ++ (os_path_splitext p).2 = p.
Proof.
  unfold os_path_splitext.
  destruct (_ && _); cbn [fst snd]; [apply take_drop | apply app_nil_r].
Qed.

(** X12: [os_path_splitext] cuts its argument in two: the parts put
    together give the argument back, and the extension is empty or is the
    last dot of the path with what follows it, which holds no slash, after a
    root that is not empty; a path without a dot has no extension. *)
Theorem os_path_splitext_parts (p : ustring) :
  (os_path_splitext p).1 ++ (os_path_splitext p).2 = p
  /\ ((os_path_splitext p).2 = []
      \/ exists e, (os_path_splitext p).2 = 46 :: e /\ (46 ∉ e) /\ (47 ∉ e)
                   /\ (os_path_splitext p).1 <> [])
  /\ (46 ∉ p -> os_path_splitext p = (p, [])).
Proof.
  unfold os_path_splitext.
  destruct (rfind_cases 46 p) as [[Hno Hdot] | (a & b & Hp & Hb & Hdot)].
  - rewrite Hdot.
    assert (Hlt : (rfind 47 p <? -1)%Z = false).
    { apply Z.ltb_ge. destruct (rfind_cases 47 p) as [[_ ->] | (? & ? & _ & _ & ->)]; lia. }
    rewrite Hlt. cbn [andb fst snd]. rewrite app_nil_r. auto.
  - rewrite Hdot. split; [| split].
    + destruct (_ && _); cbn [fst snd]; [apply take_drop | apply app_nil_r].
    + destruct (_ && _) eqn:Hcond; cbn [fst snd]; [right | left; reflexivity].
      apply andb_prop in Hcond as [Hsep%Z.ltb_lt Hnondot].
      rewrite Nat2Z.id, Hp, drop_app_length, take_app_length.
      exists b. split; [reflexivity |]. split; [exact Hb |]. split.
      * intros H47. destruct (rfind_cases 47 p) as [[Hno _] | (a' & b' & Hp' & Hb' & H47')].
        -- apply Hno. rewrite Hp. set_solver.
        -- rewrite H47' in Hsep. apply Nat2Z.inj_lt in Hsep.
           apply Hb'. rewrite <- (drop_after a' b' 47), <- Hp', Hp.
           rewrite drop_app_le by lia. apply elem_of_app. right. right. exact H47.
      * intros ->. apply existsb_exists in Hnondot as (x & Hx & _).
        unfold slice in Hx. cbn [length] in Hx. rewrite Nat2Z.id in Hx.
        cbn in Hx. rewrite take_0 in Hx. destruct Hx.
    + intros Hno. exfalso. apply Hno. rewrite Hp. set_solver.
Qed.

Lemma os_path_splitext_parts_witness :
  (46 ∉ u "d/README") /\ os_path_splitext (u "d/README") = (u "d/README", []).
Proof.
  assert (Hno : 46 ∉ u "d/README").
  { intros Hin%list_elem_of_In. vm_compute in Hin. intuition discriminate. }
  split; [exact Hno |].
  exact (proj2 (proj2 (os_path_splitext_parts (u "d/README"))) Hno).
Defined.

Lemma forallb_slash (d : ustring) :
  forallb (N.eqb 47) d = true <-> Forall (fun c => c = 47) d.
Proof.
  rewrite forallb_forall, Forall_forall. split; intros H x Hx.
  - symmetry. apply N.eqb_eq, H, list_elem_of_In, Hx.
  - apply N.eqb_eq. symmetry. apply H, list_elem_of_In, Hx.
Qed.

Lemma lstrip_nonempty (p : N -> bool) (s : ustring) :
  lstrip p s = [] -> Forall (fun c => p c = true) s.
Proof.
  induction s as [| x s IH]; cbn; [constructor |].
  destruct (p x) eqn:Hx; [| discriminate]. intros H. constructor; auto.
Qed.

Lemma os_path_dirname_trimmed (p : ustring) : trimmed_directory (os_path_dirname p).
Proof.
  unfold os_path_dirname, trimmed_directory.
  set (h := take _ p).
  destruct (forallb (N.eqb 47) h) eqn:Hall; cbn [negb].
  - left. apply forallb_slash, Hall.
  - right. split.
    + unfold rstrip. intros Hnil. apply (f_equal reverse) in Hnil.
      rewrite reverse_involutive in Hnil. cbn in Hnil.
      apply lstrip_nonempty in Hnil. apply Forall_reverse in Hnil.
      rewrite reverse_involutive in Hnil.
      assert (forallb (N.eqb 47) h = true); [| congruence].
      apply forallb_forall. intros x Hx. rewrite Forall_forall in Hnil.
      apply (Hnil x), list_elem_of_In, Hx.
    + intros Hlast. apply rstrip_last in Hlast. discriminate.
Qed.

Lemma endswith_slash (d : ustring) :
  endswith (u "/") d = true <-> last d = Some 47.
Proof.
  rewrite endswith_suffix. change (u "/") with [47]. rewrite last_Some. reflexivity.
Qed.

Lemma slashes_last (d : ustring) :
  d <> [] -> Forall (fun c => c = 47) d -> last d = Some 47.
Proof.
  intros Hne Hall. destruct (last d) as [x |] eqn:Hlast.
  - rewrite Forall_forall in Hall. f_equal. apply Hall.
    apply last_Some in Hlast as [l ->]. set_solver.
  - apply last_None in Hlast. contradiction.
Qed.

(** Joining a directory name with a name that has no slash and taking the
    directory of the result gives the directory name back. *)
Lemma os_path_dirname_join (d n : ustring) :
  trimmed_directory d -> 47 ∉ n -> os_path_dirname (os_path_join d n) = d.
Proof.
  intros Hd Hn.
  assert (Hstart : startswith (u "/") n = false).
  { destruct (startswith (u "/") n) eqn:Hs; [| reflexivity].
    exfalso. apply Hn. apply (startswith_elem _ _ _ Hs). change (u "/") with [47]. set_solver. }
  unfold os_path_join. rewrite Hstart.
  destruct d as [| x d].
  - cbn [app]. unfold os_path_dirname. rewrite (rfind_absent _ _ Hn). reflexivity.
  - destruct Hd as [Hall | [_ Hlast]].
    + assert (Hend : last (x :: d) = Some 47) by (apply slashes_last; [discriminate | exact Hall]).
      rewrite (proj2 (endswith_slash _) Hend).
      apply last_Some in Hend as [l Hl]. rewrite Hl, <- app_assoc. cbn [app].
      unfold os_path_dirname. rewrite (rfind_last _ _ _ Hn).
      rewrite <- Nat2Z.inj_succ, Nat2Z.id, (cons_middle 47), app_assoc.
      replace (S (length l)) with (length (l ++ [47])) by (rewrite length_app; cbn; lia).
      rewrite take_app_length, <- Hl.
      rewrite (proj2 (forallb_slash _) Hall). reflexivity.
    + destruct (endswith (u "/") (x :: d)) eqn:Hend;
        [apply endswith_slash in Hend; contradiction |].
      change (u "/" ++ n) with (47 :: n).
      unfold os_path_dirname. rewrite (rfind_last _ _ _ Hn).
      rewrite <- Nat2Z.inj_succ, Nat2Z.id, (cons_middle 47), app_assoc.
      replace (S (length (x :: d))) with (length ((x :: d) ++ [47]))
        by (rewrite length_app; cbn; lia).
      rewrite take_app_length.
      assert (Hnot : forallb (N.eqb 47) ((x :: d) ++ [47]) = false).
      { destruct (forallb (N.eqb 47) ((x :: d) ++ [47])) eqn:Hall; [| reflexivity].
        apply forallb_slash, Forall_app in Hall as [Hall _].
        exfalso. apply Hlast, slashes_last; [discriminate | exact Hall]. }
      rewrite Hnot. cbn [negb]. unfold rstrip. rewrite reverse_app. cbn [reverse app].
      change (reverse [47]) with [47]. cbn [app lstrip N.eqb Pos.eqb].
      rewrite lstrip_id; [apply reverse_involutive |].
      intros c. rewrite head_reverse. intros Hc. apply N.eqb_neq. congruence.
Qed.

Lemma name_with_counter_no_slash (new_name : ustring) (k : nat) :
  47 ∉ new_name ->
  47 ∉ name_with_counter (os_path_splitext new_name).1 (os_path_splitext new_name).2 k.
Proof.
  intros Hn. rewrite <- (os_path_splitext_app new_name) in Hn. unfold name_with_counter.
  rewrite !not_elem_of_app in *. destruct Hn as [Hbase Hext].
  split; [exact Hbase |].
  split; [change (u "_") with [95]; intros H%list_elem_of_singleton; discriminate |].
  split; [| exact Hext].
  intros Hin. pose proof (str_of_N_digits (N.of_nat k)) as Hdigits.
  rewrite Forall_forall in Hdigits. specialize (Hdigits _ Hin). discriminate.
Qed.

Section SameDirectory.
Context {world : Type} {os : OS world} {tables : UnicodeTables}.

Lemma resolve_collision_same_directory (w : world) (old_path new_name new_path : ustring) :
  47 ∉ new_name ->
  resolve_collision w old_path new_name = Some new_path ->
  os_path_dirname new_path = os_path_dirname old_path.
Proof.
  intros Hn Hres.
  destruct (resolve_collision_first_free w old_path new_name) as (m & Hm & _).
  rewrite Hres in Hm. injection Hm as ->.
  destruct m as [| m]; cbn [candidate_path];
    apply os_path_dirname_join;
    auto using os_path_dirname_trimmed, name_with_counter_no_slash.
Qed.

(** X13: renaming in place keeps the file in its directory: the path that
    [rename_file] returns for a name without a slash, and the new path of a
    file that [process_single_invoice] renames, have the directory of the
    old path, whichever candidate of the collision loop is taken. *)
Theorem rename_keeps_directory (file_path : ustring) (w : world) :
  (forall new_name w' new_path,
     47 ∉ new_name ->
     rename_file file_path new_name w = Some (Returns (w', new_path)) ->
     os_path_dirname new_path = os_path_dirname file_path)
  /\ (forall w' new_path new_filename data,
        process_single_invoice file_path None w
          = Some (w', Success file_path new_path new_filename data) ->
        os_path_dirname new_path = os_path_dirname file_path).
Proof.
  assert (Hrename : forall new_name w' new_path,
            47 ∉ new_name ->
            rename_file file_path new_name w = Some (Returns (w', new_path)) ->
            os_path_dirname new_path = os_path_dirname file_path).
  { intros new_name w' new_path Hn. unfold rename_file.
    destruct (resolve_collision w file_path new_name) as [p |] eqn:Hres; [| discriminate].
    destruct (os_rename file_path p w); [| discriminate].
    intros [= <- <-]. apply (resolve_collision_same_directory _ _ _ _ Hn Hres). }
  split; [exact Hrename |].
  intros w' new_path new_filename data. unfold process_single_invoice. cbn [truthy].
  destruct (rename_file _ _ w) as [[[w2 p] | e] |] eqn:Hr; [| discriminate | discriminate].
  intros [= <- <- <- <-]. refine (Hrename _ _ _ _ Hr). apply legal_no_slash, legal_create_new_name_cleaned.
Qed.

End SameDirectory.

Lemma rename_keeps_directory_witness :
  (47 ∉ u "X.pdf")
  /\ rename_file (os := silent_os) (u "d/a.png") (u "X.pdf") crowded_world
     = Some (Returns ({| files := {[ u "d/X_2.pdf" ]}
                                  ∪ (files crowded_world ∖ {[ u "d/a.png" ]});
                         clock := example_clock |}, u "d/X_2.pdf"))
  /\ os_path_dirname (u "d/X_2.pdf") = os_path_dirname (u "d/a.png").
Proof.
  assert (Hn : 47 ∉ u "X.pdf").
  { intros Hin%list_elem_of_In. vm_compute in Hin. intuition discriminate. }
  assert (Hr : rename_file (os := silent_os) (u "d/a.png") (u "X.pdf") crowded_world
               = Some (Returns ({| files := {[ u "d/X_2.pdf" ]}
                                            ∪ (files crowded_world ∖ {[ u "d/a.png" ]});
                                   clock := example_clock |}, u "d/X_2.pdf")))
    by (vm_compute; reflexivity).
  split; [exact Hn |]. split; [exact Hr |].
  exact (proj1 (rename_keeps_directory (os := silent_os) (tables := ascii_tables)
                  (u "d/a.png") crowded_world) _ _ _ Hn Hr).
Defined.

(** ** Where collisions are handled *)

Section Modes.
Context {world : Type} {os : OS world} {tables : UnicodeTables}.

Lemma rename_file_fresh (old_path new_name new_path : ustring) (w w' : world) :
  rename_file old_path new_name w = Some (Returns (w', new_path)) ->
  os_path_exists new_path w = false.
Proof.
  unfold rename_file.
  destruct (resolve_collision_first_free w old_path new_name) as (m & -> & Hfree & _).
  destruct (os_rename _ _ w); [| discriminate]. intros [= <- <-]. exact Hfree.
Qed.

(** X14: only renaming in place looks for a free name.  In place, the new
    path of a success did not exist before.  With an output directory the
    new path is the directory joined with the new name whether or not that
    path exists, so that two files with the same cleaned record and the same
    date of processing are copied to the same path. *)
Theorem collisions_handled_in_place_only (file_path : ustring) (w w' : world)
    (new_path new_filename : ustring) (data : InvoiceRecord) :
  (process_single_invoice file_path None w
     = Some (w', Success file_path new_path new_filename data) ->
   os_path_exists new_path w = false)
  /\ (forall c d,
        process_single_invoice file_path (Some (c :: d)) w
          = Some (w', Success file_path new_path new_filename data) ->
        new_path = os_path_join (c :: d) new_filename
        /\ forall other v v' other_path other_filename,
             process_single_invoice other (Some (c :: d)) v
               = Some (v', Success other other_path other_filename data) ->
             datetime_now v = datetime_now w ->
             other_path = new_path).
Proof.
  split.
  - unfold process_single_invoice. cbn [truthy].
    set (rec := clean_all (answer_invoice_questions file_path w)).
    destruct (rename_file _ _ w) as [[[w2 p] | e] |] eqn:Hr; try discriminate.
    intros Heq. injection Heq as _ <- _ _. apply (rename_file_fresh _ _ _ _ _ Hr).
  - intros c d. unfold process_single_invoice at 1. cbn [truthy].
    set (rec := clean_all (answer_invoice_questions file_path w)).
    destruct (os_makedirs (c :: d) w) as [w1 | e]; [| discriminate].
    destruct (shutil_copy2 _ _ w1) as [w2 | e]; [| discriminate].
    intros Heq. injection Heq as _ Hpath Hname Hdata.
    split; [congruence |].
    intros other v v' other_path other_filename. unfold process_single_invoice.
    cbn [truthy]. set (rec' := clean_all (answer_invoice_questions other v)).
    destruct (os_makedirs (c :: d) v) as [v1 | e]; [| discriminate].
    destruct (shutil_copy2 _ _ v1) as [v2 | e]; [| discriminate].
    intros Heq Hclock. injection Heq as _ Hpath' Hname' Hdata'.
    rewrite <- Hpath, <- Hpath', Hclock. congruence.
Qed.

Lemma process_path_original (file_path : ustring) (output_directory : option ustring)
    (w w' : world) (r : ProcessResult) :
  process_path file_path output_directory w = Some (w', r) ->
  original_path_of r = file_path.
Proof.
  unfold process_path, process_single_invoice.
  destruct (os_path_exists file_path w); [| intros [= <- <-]; reflexivity].
  destruct (truthy output_directory) as [d |].
  - destruct (os_makedirs d w) as [w1 | e]; [| intros [= <- <-]; reflexivity].
    destruct (shutil_copy2 _ _ w1) as [w2 | e]; intros [= <- <-]; reflexivity.
  - destruct (rename_file _ _ w) as [[[w2 p] | e] |]; [| | discriminate];
      intros [= <- <-]; reflexivity.
Qed.

Lemma process_multiple_invoices_original (file_paths : list ustring)
    (output_directory : option ustring) (w w' : world) (results : list ProcessResult) :
  process_multiple_invoices file_paths output_directory w = Some (w', results) ->
  map original_path_of results = file_paths.
Proof.
  revert w results. induction file_paths as [| p ps IH]; intros w results.
  - intros [= <- <-]. reflexivity.
  - rewrite process_multiple_invoices_cons.
    destruct (process_path p output_directory w) as [[w1 r] |] eqn:Hp; [| discriminate].
    destruct (process_multiple_invoices ps output_directory w1) as [[w2 rs] |] eqn:Hps;
      [| discriminate].
    intros [= <- <-]. cbn [map].
    rewrite (process_path_original _ _ _ _ _ Hp), (IH _ _ Hps). reflexivity.
Qed.

End Modes.

Lemma collisions_handled_in_place_only_witness :
  (process_single_invoice (os := silent_os) (tables := ascii_tables)
     (u "d/a.png") None two_invoices
   = Some (first_invoice_renamed.1,
           Success (u "d/a.png") (u "d/UnknownCompany_NoNumber_2026-11-03_NoAmount.pdf")
             (u "UnknownCompany_NoNumber_2026-11-03_NoAmount.pdf") unknown_record)
   /\ os_path_exists (os := silent_os)
        (u "d/UnknownCompany_NoNumber_2026-11-03_NoAmount.pdf") two_invoices = false)
  /\ (process_single_invoice (os := silent_os) (tables := ascii_tables)
        (u "d/a.png") (Some (u "out")) two_invoices
      = Some (first_invoice_copied.1,
              Success (u "d/a.png")
                (u "out/UnknownCompany_NoNumber_2026-11-03_NoAmount.pdf")
                (u "UnknownCompany_NoNumber_2026-11-03_NoAmount.pdf") unknown_record)
      /\ process_single_invoice (os := silent_os) (tables := ascii_tables)
           (u "d/b.png") (Some (u "out")) first_invoice_copied.1
         = Some (first_invoice_copied.1,
                 Success (u "d/b.png")
                   (u "out/UnknownCompany_NoNumber_2026-11-03_NoAmount.pdf")
                   (u "UnknownCompany_NoNumber_2026-11-03_NoAmount.pdf") unknown_record)
      /\ u "out/UnknownCompany_NoNumber_2026-11-03_NoAmount.pdf"
         = os_path_join (u "out") (u "UnknownCompany_NoNumber_2026-11-03_NoAmount.pdf")).
Proof.
  assert (H1 : process_single_invoice (os := silent_os) (tables := ascii_tables)
                 (u "d/a.png") None two_invoices
               = Some (first_invoice_renamed.1,
                       Success (u "d/a.png")
                         (u "d/UnknownCompany_NoNumber_2026-11-03_NoAmount.pdf")
                         (u "UnknownCompany_NoNumber_2026-11-03_NoAmount.pdf")
                         unknown_record)) by (vm_compute; reflexivity).
  assert (H2 : process_single_invoice (os := silent_os) (tables := ascii_tables)
                 (u "d/a.png") (Some (111 :: u "ut")) two_invoices
               = Some (first_invoice_copied.1,
                       Success (u "d/a.png")
                         (u "out/UnknownCompany_NoNumber_2026-11-03_NoAmount.pdf")
                         (u "UnknownCompany_NoNumber_2026-11-03_NoAmount.pdf")
                         unknown_record)) by (vm_compute; reflexivity).
  assert (H3 : process_single_invoice (os := silent_os) (tables := ascii_tables)
                 (u "d/b.png") (Some (111 :: u "ut")) first_invoice_copied.1
               = Some (first_invoice_copied.1,
                       Success (u "d/b.png")
                         (u "out/UnknownCompany_NoNumber_2026-11-03_NoAmount.pdf")
                         (u "UnknownCompany_NoNumber_2026-11-03_NoAmount.pdf")
                         unknown_record)) by (vm_compute; reflexivity).
  split.
  - split; [exact H1 |].
    exact (proj1 (collisions_handled_in_place_only (os := silent_os)
                    (tables := ascii_tables) _ _ _ _ _ _) H1).
  - split; [exact H2 |]. split; [exact H3 |].
    exact (proj1 (proj2 (collisions_handled_in_place_only (os := silent_os)
                           (tables := ascii_tables) _ _ _ _ _ _) _ _ H2)).
Defined.

(** ** Renaming in place never loses a file *)

Lemma moved_size (old new : ustring) (E E' : gset ustring) :
  old ∈ E -> new ∉ E -> E' = {[new]} ∪ (E ∖ {[old]}) ->
  size E' = size E /\ (forall q, q ∈ E -> q <> old -> q ∈ E').
Proof.
  intros Hold Hnew ->. split.
  - assert (Hsub : ({[old]} : gset ustring) ⊆ E) by (apply singleton_subseteq_l, Hold).
    rewrite size_union.
    + rewrite size_singleton, (size_difference _ _ Hsub), size_singleton.
      apply subseteq_size in Hsub. rewrite size_singleton in Hsub. lia.
    + apply disjoint_singleton_l. intros [Hin _]%elem_of_difference. contradiction.
  - intros q Hq Hne. apply elem_of_union. right.
    apply elem_of_difference. split; [exact Hq |].
    intros Hin%elem_of_singleton. contradiction.
Qed.

Section InPlace.
Context {world : Type} {os : OS world} {tables : UnicodeTables}.

Lemma process_path_in_place (p : ustring) (w w' : world) (r : ProcessResult) :
  rename_moves ->
  process_path p None w = Some (w', r) ->
  size (existing w') = size (existing w)
  /\ (forall q, q ∈ existing w -> q <> p -> q ∈ existing w').
Proof.
  intros Hmoves. unfold process_path.
  destruct (os_path_exists p w) eqn:Hex; [| intros [= <- <-]; auto].
  unfold process_single_invoice. cbn [truthy]. unfold rename_file.
  match goal with
  | |- context [resolve_collision ?v ?old ?name] =>
      destruct (resolve_collision_first_free v old name) as (m & -> & Hfree & _)
  end.
  unfold os_path_exists in Hex, Hfree.
  apply bool_decide_eq_true in Hex. apply bool_decide_eq_false in Hfree.
  destruct (os_rename p _ w) as [w2 | e] eqn:Hren; intros [= <- <-]; [| auto].
  apply (moved_size _ _ _ _ Hex Hfree (Hmoves _ _ _ _ Hren)).
Qed.

(** X15: if a successful [os.rename] moves one name in the set of existing
    paths, a batch that renames in place never loses a file and never
    overwrites one: the number of existing paths stays the same, and a path
    that exists and is not among the inputs still exists afterwards. *)
Theorem in_place_batch_keeps_files (file_paths : list ustring) (w w' : world)
    (results : list ProcessResult) :
  rename_moves ->
  process_multiple_invoices file_paths None w = Some (w', results) ->
  size (existing w') = size (existing w)
  /\ forall q, q ∈ existing w -> q ∉ file_paths -> q ∈ existing w'.
Proof.
  intros Hmoves. revert w results.
  induction file_paths as [| p ps IH]; intros w results.
  - intros [= <- <-]. auto.
  - rewrite process_multiple_invoices_cons.
    destruct (process_path p None w) as [[w1 r] |] eqn:Hp; [| discriminate].
    destruct (process_multiple_invoices ps None w1) as [[w2 rs] |] eqn:Hps;
      [| discriminate].
    intros [= <- <-].
    destruct (process_path_in_place _ _ _ _ Hmoves Hp) as [Hsize Hkeep].
    destruct (IH _ _ Hps) as [Hsize' Hkeep'].
    split; [congruence |]. intros q Hq Hnot.
    apply not_elem_of_cons in Hnot as [Hne Hnot]. auto.
Qed.

End InPlace.

Lemma in_place_batch_keeps_files_witness :
  rename_moves (os := silent_os)
  /\ process_multiple_invoices (os := silent_os) (tables := ascii_tables)
       [u "d/a.png"; u "d/c.png"; u "d/b.png"] None two_invoices
     = Some (after_batch.1, after_batch.2)
  /\ size (files after_batch.1) = 2%nat.
Proof.
  assert (Hmoves : rename_moves (os := silent_os)).
  { intros old new w w'. cbn. unfold set_rename.
    case_bool_decide; [intros [= <-]; reflexivity | discriminate]. }
  assert (Hrun : process_multiple_invoices (os := silent_os) (tables := ascii_tables)
                   [u "d/a.png"; u "d/c.png"; u "d/b.png"] None two_invoices
                 = Some (after_batch.1, after_batch.2)) by (vm_compute; reflexivity).
  split; [exact Hmoves |]. split; [exact Hrun |].
  transitivity (size (files two_invoices)); [| vm_compute; reflexivity].
  exact (proj1 (in_place_batch_keeps_files (os := silent_os) (tables := ascii_tables)
                  _ _ _ _ Hmoves Hrun)).
Defined.

(** ** The directory scan and the report *)

Lemma filter_partition_length {A : Type} (f : A -> bool) (l : list A) :
  (length (List.filter f l) + length (List.filter (fun x => negb (f x)) l))%nat = length l.
Proof.
  induction l as [| x l IH]; cbn; [reflexivity |]. destruct (f x); cbn; lia.
Qed.

Lemma print_processed_ok (results : list ProcessResult) (lines : list ustring) :
  Forall (fun r => success r = true) results ->
  exists more, print_processed results lines = (lines ++ more, Returns tt).
Proof.
  intros Hall. revert lines. induction Hall as [| r rs Hr Hrs IH]; intros lines.
  - exists []. cbn. rewrite app_nil_r. reflexivity.
  - destruct r; [| discriminate]. cbn [print_processed].
    destruct (IH (lines ++ [u "  " ++ [8226] ++ u " " ++ os_path_basename original_path
                            ++ u " " ++ [8594] ++ u " " ++ new_filename]))
      as [more ->].
    eexists. rewrite <- app_assoc. reflexivity.
Qed.

Lemma print_failed_ok (results : list ProcessResult) (lines : list ustring) :
  Forall (fun r => negb (success r) = true) results ->
  exists more, print_failed results lines = (lines ++ more, Returns tt).
Proof.
  intros Hall. revert lines. induction Hall as [| r rs Hr Hrs IH]; intros lines.
  - exists []. cbn. rewrite app_nil_r. reflexivity.
  - destruct r; [discriminate |]. cbn [print_failed].
    destruct (IH (lines ++ [u "  " ++ [8226] ++ u " " ++ os_path_basename original_path
                            ++ u ": " ++ error])) as [more ->].
    eexists. rewrite <- app_assoc. reflexivity.
Qed.

Section ProcessorFacts.
Context {world : Type} {os : OS world} {listing : Listing world}
        {tables : UnicodeTables} {cases : CaseMapping}.

Lemma scan_directory_filter (input_directory : ustring) (file_extensions : list ustring)
    (w : world) (filenames invoice_files : list ustring) :
  scan_directory input_directory file_extensions w filenames invoice_files
  = invoice_files
    ++ map (os_path_join input_directory)
         (List.filter (selected input_directory file_extensions w) filenames).
Proof.
  revert invoice_files. induction filenames as [| f fs IH]; intros acc;
    cbn [scan_directory List.filter map]; [rewrite app_nil_r; reflexivity |].
  rewrite IH. unfold selected at 2.
  destruct (os_path_isfile _ w); cbn [andb]; [| reflexivity].
  destruct (bool_decide _); cbn [map]; [rewrite <- app_assoc |]; reflexivity.
Qed.

(** What [run_invoice_processor] does, in one of three ways. *)
Lemma run_invoice_processor_cases (input_directory : ustring)
    (output_directory : option ustring) (file_extensions : option (list ustring))
    (w w' : world) (s : Summary) :
  run_invoice_processor input_directory output_directory file_extensions w
    = Some (Returns (w', s)) ->
  let invoice_files :=
    if os_path_exists input_directory w then
      match os_listdir input_directory w with
      | Returns filenames =>
          map (os_path_join input_directory)
            (List.filter (selected input_directory (extensions_of file_extensions) w)
               filenames)
      | Raises _ => []
      end
    else [] in
  (invoice_files = [] /\ w' = w
   /\ s = {| summary_success := false;
             message := u "No invoice files found in " ++ input_directory;
             processed_files := []; failed_files := []; total_files := None |})
  \/ (invoice_files <> []
      /\ exists results,
           process_multiple_invoices invoice_files output_directory w = Some (w', results)
           /\ processed_files s = List.filter success results
           /\ failed_files s = List.filter (fun r => negb (success r)) results
           /\ summary_success s = (0 <? length (processed_files s))%nat
           /\ total_files s = Some (length invoice_files)).
Proof.
  unfold run_invoice_processor. fold (extensions_of file_extensions).
  change (map str_lower match file_extensions with
                        | Some l => l
                        | None => default_extensions
                        end) with (extensions_of file_extensions).
  cbv zeta.
  destruct (os_path_exists input_directory w).
  - destruct (os_listdir input_directory w) as [filenames | e]; [| discriminate].
    rewrite scan_directory_filter. cbn [app].
    destruct (map _ _) as [| f fs] eqn:Hfiles.
    + intros [= <- <-]. left. auto.
    + destruct (process_multiple_invoices (f :: fs) output_directory w)
        as [[w2 results] |] eqn:Hrun; [| discriminate].
      intros [= <- <-]. right. split; [discriminate |].
      exists results. cbn. auto.
  - intros [= <- <-]. left. auto.
Qed.

Lemma run_invoice_processor_partition (input_directory : ustring)
    (output_directory : option ustring) (file_extensions : option (list ustring))
    (w w' : world) (s : Summary) :
  run_invoice_processor input_directory output_directory file_extensions w
    = Some (Returns (w', s)) ->
  Forall (fun r => success r = true) (processed_files s)
  /\ Forall (fun r => success r = false) (failed_files s)
  /\ match total_files s with
     | Some total =>
         (1 <= total)%nat
         /\ total = (length (processed_files s) + length (failed_files s))%nat
     | None => processed_files s = [] /\ failed_files s = [] /\ w' = w
     end.
Proof.
  intros Hrun. apply run_invoice_processor_cases in Hrun. cbv zeta in Hrun.
  destruct Hrun as [(_ & -> & ->) | (Hne & results & Hrun & Hp & Hf & Hs & Ht)].
  - cbn. repeat split; constructor.
  - rewrite Ht, Hp, Hf. split; [apply filter_Forall_bool |]. split.
    { eapply Forall_impl; [apply (filter_Forall_bool (fun r => negb (success r))) |].
      intros r Hr. apply negb_true_iff, Hr. }
    match type of Hrun with
    | process_multiple_invoices ?paths _ _ = _ =>
        destruct (process_multiple_invoices_total paths output_directory w)
          as (w2 & rs & Hrun' & Hlen)
    end.
    rewrite Hrun in Hrun'. injection Hrun' as <- <-.
    rewrite filter_partition_length, Hlen. split; [| reflexivity].
    match goal with |- (1 <= length ?l)%nat => destruct l; [contradiction | cbn; lia] end.
Qed.

(** X16: the summary counts every selected file once.  With [total_files]
    present it is at least 1 and is the number of successes plus the number
    of failures; without it both lists are empty and nothing was touched.
    The two lists hold successes only and failures only, and [success] says
    that some file succeeded. *)
Theorem run_invoice_processor_counts (input_directory : ustring)
    (output_directory : option ustring) (file_extensions : option (list ustring))
    (w w' : world) (s : Summary) :
  run_invoice_processor input_directory output_directory file_extensions w
    = Some (Returns (w', s)) ->
  Forall (fun r => success r = true) (processed_files s)
  /\ Forall (fun r => success r = false) (failed_files s)
  /\ (summary_success s = true <-> processed_files s <> [])
  /\ match total_files s with
     | Some total =>
         (1 <= total)%nat
         /\ total = (length (processed_files s) + length (failed_files s))%nat
     | None => processed_files s = [] /\ failed_files s = [] /\ w' = w
     end.
Proof.
  intros Hrun.
  destruct (run_invoice_processor_partition _ _ _ _ _ _ Hrun) as (Hp & Hf & Ht).
  split; [exact Hp |]. split; [exact Hf |]. split; [| exact Ht].
  apply run_invoice_processor_cases in Hrun. cbv zeta in Hrun.
  destruct Hrun as [(_ & _ & ->) | (_ & results & _ & _ & _ & Hs & _)].
  - cbn. split; [discriminate | intros H; contradiction].
  - rewrite Hs, Nat.ltb_lt. destruct (processed_files s); cbn; split;
      try lia; try discriminate. intros H. contradiction.
Qed.

(** X17: only what the scan selects is processed.  The paths of the
    results are, in the order of the listing, the names of the directory
    that are regular files and whose extension, taken from the name in
    lower case, is one of the extensions in lower case, each joined to the
    directory. *)
Theorem run_invoice_processor_selection (input_directory : ustring)
    (output_directory : option ustring) (file_extensions : option (list ustring))
    (w w' : world) (s : Summary) (total : nat) :
  run_invoice_processor input_directory output_directory file_extensions w
    = Some (Returns (w', s)) ->
  total_files s = Some total ->
  exists filenames results,
    os_listdir input_directory w = Returns filenames
    /\ map original_path_of results
       = map (os_path_join input_directory)
           (List.filter (selected input_directory (extensions_of file_extensions) w)
              filenames)
    /\ processed_files s = List.filter success results
    /\ failed_files s = List.filter (fun r => negb (success r)) results.
Proof.
  intros Hrun Htotal. apply run_invoice_processor_cases in Hrun. cbv zeta in Hrun.
  destruct Hrun as [(_ & _ & ->) | (Hne & results & Hrun & Hp & Hf & _)];
    [discriminate |].
  destruct (os_path_exists input_directory w); [| contradiction].
  destruct (os_listdir input_directory w) as [filenames | e]; [| contradiction].
  exists filenames, results. split; [reflexivity |].
  split; [apply (process_multiple_invoices_original _ _ _ _ _ Hrun) | auto].
Qed.

Lemma main_report_with_total (s : Summary) (total : nat) :
  Forall (fun r => success r = true) (processed_files s) ->
  Forall (fun r => success r = false) (failed_files s) ->
  total_files s = Some total ->
  exists lines,
    main_report s
    = (lines ++ [total_line (length (processed_files s)) total], Returns tt).
Proof.
  intros Hp Hf Htotal. unfold main_report. rewrite Htotal.
  assert (H1 : exists lines1,
             match processed_files s with
             | [] => ([[10] ++ message s], Returns tt)
             | _ :: _ =>
                 print_processed (processed_files s)
                   ([[10] ++ message s] ++ [[10] ++ u "Successfully processed files:"])
             end = (lines1, Returns tt)).
  { destruct (processed_files s) as [| r rs]; [eauto |].
    destruct (print_processed_ok (r :: rs)
                ([[10] ++ message s] ++ [[10] ++ u "Successfully processed files:"]) Hp)
      as [more ->]. eauto. }
  destruct H1 as [lines1 ->].
  assert (H2 : exists lines2,
             match failed_files s with
             | [] => (lines1, Returns tt)
             | _ :: _ =>
                 print_failed (failed_files s)
                   (lines1 ++ [[10] ++ u "Failed to process files:"])
             end = (lines2, Returns tt)).
  { destruct (failed_files s) as [| r rs]; [eauto |].
    assert (Hf' : Forall (fun r => negb (success r) = true) (r :: rs))
      by (eapply Forall_impl; [exact Hf |]; intros x Hx; apply negb_true_iff, Hx).
    destruct (print_failed_ok (r :: rs)
                (lines1 ++ [[10] ++ u "Failed to process files:"]) Hf')
      as [more ->]. eauto. }
  destruct H2 as [lines2 ->]. exists lines2. reflexivity.
Qed.

Lemma filter_none {A : Type} (f : A -> bool) (l : list A) :
  Forall (fun x => f x = false) l -> List.filter f l = [].
Proof. induction 1 as [| x l Hx Hl IH]; cbn; [| rewrite Hx]; auto. Qed.

(** X18: the command line does not survive a directory without invoices.
    When the input directory exists and none of its names is a regular
    file with one of the eight default extensions, the early return of
    [run_invoice_processor] has no [total_files], which the last print
    reads: after the message the command line ends with [KeyError], and has
    touched nothing. *)
Theorem main_without_invoice_files (prog input_dir : ustring)
    (rest filenames : list ustring) (w : world) :
  os_path_exists input_dir w = true ->
  os_listdir input_dir w = Returns filenames ->
  Forall (fun filename => selected input_dir (extensions_of None) w filename = false)
    filenames ->
  main (prog :: input_dir :: rest) w
  = Some (w, ([u "Processing invoices in: " ++ input_dir;
               mode_line (head rest);
               [10] ++ u "No invoice files found in " ++ input_dir],
              Raises (u "'total_files'"))).
Proof.
  intros Hex Hlist Hnone. unfold main. rewrite Hex.
  unfold run_invoice_processor. rewrite Hex, Hlist, scan_directory_filter.
  change (map str_lower default_extensions) with (extensions_of None).
  rewrite (filter_none _ _ Hnone). reflexivity.
Qed.

(** X19: the command line ends without an exception only after a run that
    found files: its last line is then the line of the total, in which the
    number of successes is at most the total and the total is at least
    1. *)
Theorem main_ends_with_total (argv : list ustring) (w w' : world)
    (lines : list ustring) :
  main argv w = Some (w', (lines, Returns tt)) ->
  exists input_dir s total,
    argv !! 1%nat = Some input_dir
    /\ run_invoice_processor input_dir (argv !! 2%nat) None w = Some (Returns (w', s))
    /\ total_files s = Some total
    /\ (1 <= total)%nat
    /\ (length (processed_files s) <= total)%nat
    /\ last lines = Some (total_line (length (processed_files s)) total).
Proof.
  unfold main. destruct argv as [| prog [| input_dir rest]]; [discriminate.. |].
  destruct (os_path_exists input_dir w); [| discriminate].
  destruct (run_invoice_processor input_dir (head rest) None w)
    as [[[w2 s] | e] |] eqn:Hrun; [| discriminate | discriminate].
  cbv zeta.
  set (lines0 := [u "Processing invoices in: " ++ input_dir; mode_line (head rest)]).
  intros Heq.
  assert (Hw : w2 = w') by congruence.
  assert (Hlines : lines = lines0 ++ (main_report s).1) by congruence.
  assert (Hend : (main_report s).2 = Returns tt) by congruence.
  clear Heq. subst w2 lines.
  destruct (run_invoice_processor_partition _ _ _ _ _ _ Hrun) as (Hp & Hf & Ht).
  destruct (total_files s) as [total |] eqn:Htotal.
  - destruct Ht as [Hpos Hsum].
    destruct (main_report_with_total s total Hp Hf Htotal) as [report Hreport].
    exists input_dir, s, total. split; [reflexivity |].
    split; [destruct rest; exact Hrun |]. split; [exact Htotal |].
    split; [exact Hpos |]. split; [lia |].
    rewrite Hreport. cbn [fst]. rewrite app_assoc. apply last_snoc.
  - destruct Ht as (Hp0 & Hf0 & _). exfalso. revert Hend.
    unfold main_report. rewrite Hp0, Hf0, Htotal. discriminate.
Qed.

End ProcessorFacts.

Lemma run_invoice_processor_counts_witness :
  run_invoice_processor (os := silent_os) (listing := invoice_listing)
    (tables := ascii_tables) (cases := ascii_lower) (u "d") None None invoice_directory
  = Some (Returns (invoice_run.1, invoice_run.2))
  /\ total_files invoice_run.2 = Some 1%nat
  /\ length (processed_files invoice_run.2) = 1%nat
  /\ Forall (fun r => success r = true) (processed_files invoice_run.2).
Proof.
  assert (Hrun : run_invoice_processor (os := silent_os) (listing := invoice_listing)
                   (tables := ascii_tables) (cases := ascii_lower)
                   (u "d") None None invoice_directory
                 = Some (Returns (invoice_run.1, invoice_run.2)))
    by (vm_compute; reflexivity).
  split; [exact Hrun |]. split; [vm_compute; reflexivity |].
  split; [vm_compute; reflexivity |].
  exact (proj1 (run_invoice_processor_counts (os := silent_os)
                  (listing := invoice_listing) (tables := ascii_tables)
                  (cases := ascii_lower) _ _ _ _ _ _ Hrun)).
Defined.

Lemma run_invoice_processor_selection_witness :
  run_invoice_processor (os := silent_os) (listing := invoice_listing)
    (tables := ascii_tables) (cases := ascii_lower) (u "d") None None invoice_directory
  = Some (Returns (invoice_run.1, invoice_run.2))
  /\ total_files invoice_run.2 = Some 1%nat
  /\ List.filter (selected (listing := invoice_listing) (cases := ascii_lower)
                    (u "d") (extensions_of (cases := ascii_lower) None)
                    invoice_directory)
       [u "A.PNG"; u "notes.txt"] = [u "A.PNG"]
  /\ exists filenames results,
       os_listdir (Listing := invoice_listing) (u "d") invoice_directory
         = Returns filenames
       /\ map original_path_of results
          = map (os_path_join (u "d"))
              (List.filter (selected (listing := invoice_listing) (cases := ascii_lower)
                              (u "d") (extensions_of (cases := ascii_lower) None)
                              invoice_directory) filenames)
       /\ processed_files invoice_run.2 = List.filter success results
       /\ failed_files invoice_run.2 = List.filter (fun r => negb (success r)) results.
Proof.
  assert (Hrun : run_invoice_processor (os := silent_os) (listing := invoice_listing)
                   (tables := ascii_tables) (cases := ascii_lower)
                   (u "d") None None invoice_directory
                 = Some (Returns (invoice_run.1, invoice_run.2)))
    by (vm_compute; reflexivity).
  assert (Htotal : total_files invoice_run.2 = Some 1%nat) by (vm_compute; reflexivity).
  split; [exact Hrun |]. split; [exact Htotal |].
  split; [vm_compute; reflexivity |].
  exact (run_invoice_processor_selection (os := silent_os)
           (listing := invoice_listing) (tables := ascii_tables)
           (cases := ascii_lower) _ _ _ _ _ _ _ Hrun Htotal).
Defined.

Lemma main_without_invoice_files_witness :
  os_path_exists (os := silent_os) (u "d") notes_directory = true
  /\ main (os := silent_os) (listing := notes_listing) (tables := ascii_tables)
       (cases := ascii_lower) [u "bot.py"; u "d"] notes_directory
     = Some (notes_directory,
             ([u "Processing invoices in: d"; u "Renaming files in place";
               [10] ++ u "No invoice files found in d"],
              Raises (u "'total_files'"))).
Proof.
  assert (Hex : os_path_exists (os := silent_os) (u "d") notes_directory = true)
    by (vm_compute; reflexivity).
  split; [exact Hex |].
  apply (main_without_invoice_files (os := silent_os) (listing := notes_listing)
           (tables := ascii_tables) (cases := ascii_lower)
           (u "bot.py") (u "d") [] [u "notes.txt"; u ".pdf"] notes_directory Hex).
  - reflexivity.
  - repeat constructor.
Defined.

Lemma main_ends_with_total_witness :
  main (os := silent_os) (listing := invoice_listing) (tables := ascii_tables)
    (cases := ascii_lower) [u "bot.py"; u "d"] invoice_directory
  = Some (invoice_main.1, (invoice_main.2.1, Returns tt))
  /\ last invoice_main.2.1 = Some ([10] ++ u "Total files processed: 1/1")
  /\ exists input_dir s total,
       [u "bot.py"; u "d"] !! 1%nat = Some input_dir
       /\ run_invoice_processor (os := silent_os) (listing := invoice_listing)
            (tables := ascii_tables) (cases := ascii_lower)
            input_dir ([u "bot.py"; u "d"] !! 2%nat) None invoice_directory
          = Some (Returns (invoice_main.1, s))
       /\ total_files s = Some total
       /\ (1 <= total)%nat
       /\ (length (processed_files s) <= total)%nat
       /\ last invoice_main.2.1 = Some (total_line (length (processed_files s)) total).
Proof.
  assert (Hrun : main (os := silent_os) (listing := invoice_listing)
                   (tables := ascii_tables) (cases := ascii_lower)
                   [u "bot.py"; u "d"] invoice_directory
                 = Some (invoice_main.1, (invoice_main.2.1, Returns tt)))
    by (vm_compute; reflexivity).
  split; [exact Hrun |]. split; [vm_compute; reflexivity |].
  exact (main_ends_with_total (os := silent_os) (listing := invoice_listing)
           (tables := ascii_tables) (cases := ascii_lower) _ _ _ _ Hrun).
Defined.

(** ** What a success reports *)

Lemma os_path_basename_join (d n : ustring) :
  47 ∉ n -> os_path_basename (os_path_join d n) = n.
Proof.
  intros Hn.
  assert (Hstart : startswith (u "/") n = false).
  { destruct (startswith (u "/") n) eqn:Hs; [| reflexivity].
    exfalso. apply Hn. apply (startswith_elem _ _ _ Hs). change (u "/") with [47]. set_solver. }
  rewrite os_path_join_prefix, Hstart. unfold os_path_basename, join_prefix.
  destruct d as [| x d]; [cbn [app]; rewrite (rfind_absent _ _ Hn); reflexivity |].
  assert (Hcut : forall a, rfind 47 ((a ++ [47]) ++ n) = Z.of_nat (length a)
                           /\ drop (S (length a)) ((a ++ [47]) ++ n) = n).
  { intros a. rewrite <- app_assoc. cbn [app].
    split; [apply rfind_last, Hn | apply drop_after]. }
  destruct (endswith (u "/") (x :: d)) eqn:Hend.
  - apply endswith_slash, last_Some in Hend as [a ->].
    destruct (Hcut a) as [-> Hdrop]. rewrite <- Nat2Z.inj_succ, Nat2Z.id. exact Hdrop.
  - change (u "/") with [47]. destruct (Hcut (x :: d)) as [-> Hdrop].
    rewrite <- Nat2Z.inj_succ, Nat2Z.id. exact Hdrop.
Qed.

Section Reported.
Context {world : Type} {os : OS world} {tables : UnicodeTables}.

(** X20: the name that a success reports is the name before the collision
    loop.  When that name is taken in the directory of the file, the file is
    renamed to a name with a counter, and the reported [new_filename] is not
    the name of the file at [new_path]. *)
Theorem new_filename_ignores_counter (file_path : ustring) (w w' : world)
    (new_path new_filename : ustring) (data : InvoiceRecord) :
  process_single_invoice file_path None w
    = Some (w', Success file_path new_path new_filename data) ->
  os_path_exists (os_path_join (os_path_dirname file_path) new_filename) w = true ->
  exists k, (1 <= k)%nat
    /\ os_path_basename new_path
       = name_with_counter (os_path_splitext new_filename).1
           (os_path_splitext new_filename).2 k
    /\ os_path_basename new_path <> new_filename.
Proof.
  unfold process_single_invoice. cbn [truthy].
  set (rec := clean_all (answer_invoice_questions file_path w)).
  pose proof (legal_no_slash _ (legal_create_new_name_cleaned (datetime_now w)
                                  (answer_invoice_questions file_path w))) as Hname.
  fold rec in Hname. revert Hname.
  generalize (create_new_name (datetime_now w) rec). intros name Hname.
  unfold rename_file.
  destruct (resolve_collision_first_free w file_path name) as (m & -> & Hfree & _).
  destruct (os_rename _ _ w) as [w2 | e]; [| discriminate].
  intros Heq Htaken.
  assert (Hpath : new_path = candidate_path (os_path_dirname file_path) name m)
    by congruence.
  assert (Hfile : new_filename = name) by congruence.
  clear Heq. subst new_path new_filename.
  destruct m as [| m]; [cbn [candidate_path] in Hfree; congruence |].
  exists (S m). split; [lia |]. cbn [candidate_path].
  rewrite (os_path_basename_join _ _ (name_with_counter_no_slash _ (S m) Hname)).
  split; [reflexivity |].
  intros Heq. apply (f_equal length) in Heq.
  rewrite <- (os_path_splitext_app name) in Heq at 3.
  unfold name_with_counter in Heq. rewrite !length_app in Heq.
  change (length (u "_")) with 1%nat in Heq. lia.
Qed.

End Reported.

Lemma new_filename_ignores_counter_witness :
  process_single_invoice (os := silent_os) (tables := ascii_tables)
    (u "d/b.png") None first_invoice_renamed.1
  = Some (second_invoice_renamed.1,
          Success (u "d/b.png")
            (u "d/UnknownCompany_NoNumber_2026-11-03_NoAmount_1.pdf")
            (u "UnknownCompany_NoNumber_2026-11-03_NoAmount.pdf") unknown_record)
  /\ os_path_basename (u "d/UnknownCompany_NoNumber_2026-11-03_NoAmount_1.pdf")
     <> u "UnknownCompany_NoNumber_2026-11-03_NoAmount.pdf".
Proof.
  assert (Hrun : process_single_invoice (os := silent_os) (tables := ascii_tables)
                   (u "d/b.png") None first_invoice_renamed.1
                 = Some (second_invoice_renamed.1,
                         Success (u "d/b.png")
                           (u "d/UnknownCompany_NoNumber_2026-11-03_NoAmount_1.pdf")
                           (u "UnknownCompany_NoNumber_2026-11-03_NoAmount.pdf")
                           unknown_record)) by (vm_compute; reflexivity).
  assert (Htaken : os_path_exists (os := silent_os)
                     (os_path_join (os_path_dirname (u "d/b.png"))
                        (u "UnknownCompany_NoNumber_2026-11-03_NoAmount.pdf"))
                     first_invoice_renamed.1 = true) by (vm_compute; reflexivity).
  split; [exact Hrun |].
  destruct (new_filename_ignores_counter (os := silent_os) (tables := ascii_tables)
              _ _ _ _ _ _ Hrun Htaken) as (k & _ & _ & Hne).
  exact Hne.
Defined.

Lemma clean_company_name_separators (s : ustring) :
  Forall (fun c => separator c = false) (clean_company_name s).
Proof.
  unfold clean_company_name. case_decide; [subst; repeat constructor |].
  apply Forall_or_unknown; [repeat constructor |].
  apply (shape_separators _ (company_name_cleaned_shape s)).
Qed.

Lemma clean_company_name_nonempty (s : ustring) : clean_company_name s <> [].
Proof.
  unfold clean_company_name. case_decide; [subst; discriminate |].
  apply or_unknown_nonempty.
Qed.

Lemma os_path_splitext_pdf (c : N) (t : ustring) :
  c <> 46 -> 47 ∉ c :: t ->
  os_path_splitext ((c :: t) ++ u ".pdf") = (c :: t, u ".pdf").
Proof.
  intros Hc Hslash. unfold os_path_splitext.
  assert (Hsep : rfind 47 ((c :: t) ++ u ".pdf") = (-1)%Z).
  { apply rfind_absent. rewrite not_elem_of_app. split; [exact Hslash |].
    intros Hin%list_elem_of_In. vm_compute in Hin. intuition discriminate. }
  assert (Hdot : rfind 46 ((c :: t) ++ u ".pdf") = Z.of_nat (length (c :: t))).
  { change (u ".pdf") with (46 :: u "pdf"). apply rfind_last.
    intros Hin%list_elem_of_In. vm_compute in Hin. intuition discriminate. }
  rewrite Hsep, Hdot. unfold slice.
  replace (Z.to_nat (-1 + 1)) with 0%nat by reflexivity.
  rewrite Nat2Z.id, Nat.sub_0_r, drop_0, take_app_length, drop_app_length.
  assert (Hlt : (-1 <? Z.of_nat (length (c :: t)))%Z = true) by (apply Z.ltb_lt; lia).
  rewrite Hlt. cbn [existsb andb].
  destruct (N.eqb_spec c 46); [contradiction | reflexivity].
Qed.

Lemma create_new_name_cleaned_form {tables : UnicodeTables}
    (now : datetime) (r : InvoiceRecord) :
  exists c t,
    create_new_name now (clean_all r) = (c :: t) ++ u ".pdf"
    /\ c <> 46 /\ 47 ∉ c :: t.
Proof.
  pose proof (legal_no_slash _ (legal_create_new_name_cleaned now r)) as Hslash.
  assert (Hhead : exists c t0,
            or_default (company_name (clean_all r)) (u "UnknownCompany") = c :: t0
            /\ c <> 46).
  { cbn [clean_all company_name]. unfold or_default. case_decide.
    - exists 85, (u "nknownCompany"). split; [reflexivity | discriminate].
    - pose proof (clean_company_name_separators (company_name r)) as Hsep.
      pose proof (clean_company_name_nonempty (company_name r)) as Hne.
      destruct (clean_company_name (company_name r)) as [| c t0]; [contradiction |].
      exists c, t0. split; [reflexivity |].
      apply Forall_inv in Hsep. unfold separator in Hsep.
      rewrite !orb_false_iff, !N.eqb_neq in Hsep. tauto. }
  destruct Hhead as (c & t0 & Hcompany & Hc).
  revert Hslash. unfold create_new_name. rewrite candidate_name_eq, Hcompany.
  set (rest := u "_" ++ _ ++ u "_" ++ _ ++ u "_" ++ _).
  unfold limit_length. destruct (_ <? _)%nat.
  - cbn [app take]. intros Hslash. exists c. eexists. split; [reflexivity |].
    split; [exact Hc |].
    change (c :: ?a ++ u ".pdf") with ((c :: a) ++ u ".pdf") in Hslash.
    apply not_elem_of_app in Hslash as [Hslash _]. exact Hslash.
  - intros Hslash. exists c.
    exists (t0 ++ u "_" ++ or_default (invoice_number (clean_all r)) (u "NoNumber")
            ++ u "_" ++ or_default (date (clean_all r)) (strftime_Ymd now)
            ++ u "_" ++ or_default (invoice_total (clean_all r)) (u "NoAmount")).
    assert (Heq : (c :: t0) ++ rest
                  = (c :: t0 ++ u "_"
                       ++ or_default (invoice_number (clean_all r)) (u "NoNumber")
                       ++ u "_" ++ or_default (date (clean_all r)) (strftime_Ymd now)
                       ++ u "_" ++ or_default (invoice_total (clean_all r)) (u "NoAmount"))
                    ++ u ".pdf").
    { subst rest. cbn [app]. rewrite <- !app_assoc. reflexivity. }
    rewrite Heq in Hslash |- *. split; [reflexivity |]. split; [exact Hc |].
    apply not_elem_of_app in Hslash as [Hslash _]. exact Hslash.
Qed.

Lemma os_path_join_endswith (d n p : ustring) :
  endswith p n = true -> endswith p (os_path_join d n) = true.
Proof.
  rewrite !endswith_suffix. intros [t ->]. rewrite os_path_join_prefix.
  destruct (startswith _ _); [eauto |]. exists (join_prefix d ++ t).
  rewrite <- app_assoc. reflexivity.
Qed.

Section Extension.
Context {world : Type} {os : OS world} {tables : UnicodeTables}.

(** X21: whatever the type of the input file, the new name and the new path
    of a success end with the extension of a PDF file; when the collision
    loop adds a counter, it puts it before that extension. *)
Theorem new_path_ends_with_pdf (file_path : ustring)
    (output_directory : option ustring) (w w' : world)
    (new_path new_filename : ustring) (data : InvoiceRecord) :
  process_single_invoice file_path output_directory w
    = Some (w', Success file_path new_path new_filename data) ->
  endswith (u ".pdf") new_filename = true
  /\ endswith (u ".pdf") new_path = true.
Proof.
  unfold process_single_invoice.
  destruct (create_new_name_cleaned_form (datetime_now w)
              (answer_invoice_questions file_path w)) as (c & t & Hname & Hc & Hslash).
  set (rec := clean_all (answer_invoice_questions file_path w)) in *.
  rewrite Hname.
  assert (Hend : endswith (u ".pdf") ((c :: t) ++ u ".pdf") = true)
    by (apply endswith_suffix; eauto).
  destruct (truthy output_directory) as [d |].
  - destruct (os_makedirs d w) as [w1 | e]; [| discriminate].
    destruct (shutil_copy2 _ _ w1) as [w2 | e]; [| discriminate].
    intros Heq.
    assert (Hpath : new_path = os_path_join d ((c :: t) ++ u ".pdf")) by congruence.
    assert (Hfile : new_filename = (c :: t) ++ u ".pdf") by congruence.
    subst. split; [exact Hend | apply os_path_join_endswith, Hend].
  - unfold rename_file.
    destruct (resolve_collision_first_free w file_path ((c :: t) ++ u ".pdf"))
      as (m & -> & _).
    destruct (os_rename _ _ w) as [w2 | e]; [| discriminate].
    intros Heq.
    assert (Hpath : new_path = candidate_path (os_path_dirname file_path)
                                 ((c :: t) ++ u ".pdf") m) by congruence.
    assert (Hfile : new_filename = (c :: t) ++ u ".pdf") by congruence.
    subst. split; [exact Hend |].
    destruct m as [| m]; cbn [candidate_path]; apply os_path_join_endswith;
      [exact Hend |].
    rewrite (os_path_splitext_pdf c t Hc Hslash). cbn [fst snd].
    unfold name_with_counter. apply endswith_suffix.
    exists ((c :: t) ++ u "_" ++ str_of_N (N.of_nat (S m))).
    rewrite <- !app_assoc. reflexivity.
Qed.

End Extension.

Lemma new_path_ends_with_pdf_witness :
  process_single_invoice (os := silent_os) (tables := ascii_tables)
    (u "d/b.png") None first_invoice_renamed.1
  = Some (second_invoice_renamed.1,
          Success (u "d/b.png")
            (u "d/UnknownCompany_NoNumber_2026-11-03_NoAmount_1.pdf")
            (u "UnknownCompany_NoNumber_2026-11-03_NoAmount.pdf") unknown_record)
  /\ endswith (u ".pdf") (u "UnknownCompany_NoNumber_2026-11-03_NoAmount.pdf") = true
  /\ endswith (u ".pdf") (u "d/UnknownCompany_NoNumber_2026-11-03_NoAmount_1.pdf") = true.
Proof.
  assert (Hrun : process_single_invoice (os := silent_os) (tables := ascii_tables)
                   (u "d/b.png") None first_invoice_renamed.1
                 = Some (second_invoice_renamed.1,
                         Success (u "d/b.png")
                           (u "d/UnknownCompany_NoNumber_2026-11-03_NoAmount_1.pdf")
                           (u "UnknownCompany_NoNumber_2026-11-03_NoAmount.pdf")
                           unknown_record)) by (vm_compute; reflexivity).
  split; [exact Hrun |].
  exact (new_path_ends_with_pdf (os := silent_os) (tables := ascii_tables)
           _ _ _ _ _ _ _ Hrun).
Defined.
